(** * The order matcher

    A shallow embedding of the [Matcher] class of [server/app] (the class its
    tests import from [./matcher]: a single-asset continuous double auction
    with two order books, a ledger of account balances, a trade history and
    the overhead captured so far) and of the [Order] struct of
    [server/app/order.js], followed by the properties of the matching and
    settlement engine.

    Modelling conventions.
    - A [tcomb] [t.Integer] is a JavaScript number without fractional part;
      it is modelled by [Z].  Prices, quantities, balances and their sums and
      products are assumed to stay within the range where JavaScript numbers
      are exact integers, so [+], [-], [*] are those of [Z] and
      [Math.floor (a / b)] is [Z.div] for a non-zero [b].
    - A [uuid] is a [string]; the order action is the string ["BUY"] or
      ["SELL"]; a [moment] timestamp is its number of milliseconds, a [Z],
      and [a.time.diff(b.time)] is [time a - time b].  The clock reading
      [moment()] and the identifier produced by [uuidv4()] are arguments of
      the operations that call them.
    - The methods mutate [this] and may throw.  They are functions from the
      matcher to an outcome and the matcher afterwards: a mutation made
      before a [throw] stays visible, as in JavaScript.
    - [Array.prototype.sort] sorts in place and is stable; it is modelled by
      a stable insertion sort driven by the same integer-valued comparator. *)

From Stdlib Require Import ZArith String List Lia Permutation Sorted.
From stdpp Require Import base option list sorting gmap strings.

#[local] Set Warnings "-clear-no-such-hyp".

Local Open Scope string_scope.
Local Open Scope list_scope.
Local Open Scope Z_scope.

(** ** Data model *)

(** [order.js]: [BUY], [SELL] and the [Order] struct. *)
Definition BUY : string := "BUY".
Definition SELL : string := "SELL".

Record Order : Type := mkOrder {
  account : string;
  price : Z;
  quantity : Z;
  action : string;
  time : Z
}.

(** The matcher's [Balance] and [HistoryEntry] (its fields [quantity] and [time]
    are [tradeQuantity] and [tradeTime] here, the names being taken by
    [Order]). *)
Record Balance : Type := mkBalance {
  money : Z;
  stock : Z
}.

Record HistoryEntry : Type := mkHistoryEntry {
  buyer : string;
  seller : string;
  buyPrice : Z;
  sellPrice : Z;
  tradeQuantity : Z;
  tradeTime : Z
}.

(** The fields of a [Matcher] instance. *)
Record Matcher : Type := mkMatcher {
  buyOrders : list Order;
  sellOrders : list Order;
  overheadMade : Z;
  users : gmap string Balance;
  history : list HistoryEntry
}.

(** [constructor ()] *)
Definition newMatcher : Matcher :=
  {| buyOrders := []; sellOrders := []; overheadMade := 0;
     users := ∅; history := [] |}.

(** Field assignments. *)
Definition setBuyOrders (l : list Order) (m : Matcher) : Matcher :=
  {| buyOrders := l; sellOrders := sellOrders m;
     overheadMade := overheadMade m; users := users m; history := history m |}.

Definition setSellOrders (l : list Order) (m : Matcher) : Matcher :=
  {| buyOrders := buyOrders m; sellOrders := l;
     overheadMade := overheadMade m; users := users m; history := history m |}.

Definition setOverheadMade (z : Z) (m : Matcher) : Matcher :=
  {| buyOrders := buyOrders m; sellOrders := sellOrders m;
     overheadMade := z; users := users m; history := history m |}.

Definition setUsers (u : gmap string Balance) (m : Matcher) : Matcher :=
  {| buyOrders := buyOrders m; sellOrders := sellOrders m;
     overheadMade := overheadMade m; users := u; history := history m |}.

Definition setHistory (h : list HistoryEntry) (m : Matcher) : Matcher :=
  {| buyOrders := buyOrders m; sellOrders := sellOrders m;
     overheadMade := overheadMade m; users := users m; history := h |}.

(** [Order.update(order, { time: { $set: t } })] and
    [Order.update(order, { quantity: { $set: q } })]: a new order, the
    argument is not changed. *)
Definition setTime (t : Z) (o : Order) : Order :=
  {| account := account o; price := price o; quantity := quantity o;
     action := action o; time := t |}.

Definition setQuantity (q : Z) (o : Order) : Order :=
  {| account := account o; price := price o; quantity := q;
     action := action o; time := time o |}.

(** ** Exceptions and the method monad *)

(** What a method can throw: [new Error(msg)], the [TypeError] of a property
    read on [undefined], and [NotAnInteger] for a quotient by zero
    ([Infinity] or [NaN], which no [t.Integer] accepts). *)
Inductive Exception : Type :=
  | Error (msg : string)
  | TypeError
  | NotAnInteger.

Inductive Outcome (A : Type) : Type :=
  | Returned (a : A)
  | Threw (e : Exception).
Arguments Returned {A} a.
Arguments Threw {A} e.

Definition Method (A : Type) : Type := Matcher → Outcome A * Matcher.

Definition ret {A} (a : A) : Method A := λ m, (Returned a, m).

Definition throw {A} (e : Exception) : Method A := λ m, (Threw e, m).

Definition bind {A B} (c : Method A) (k : A → Method B) : Method B :=
  λ m, match c m with
       | (Returned a, m') => k a m'
       | (Threw e, m') => (Threw e, m')
       end.

(** [try { c } catch (e) { h e }] *)
Definition tryCatch {A} (c : Method A) (h : Exception → Method A) : Method A :=
  λ m, match c m with
       | (Returned a, m') => (Returned a, m')
       | (Threw e, m') => h e m'
       end.

Definition this : Method Matcher := λ m, (Returned m, m).

Definition assign (f : Matcher → Matcher) : Method unit := λ m, (Returned tt, f m).

Declare Scope method_scope.
Delimit Scope method_scope with method.
Bind Scope method_scope with Method.
Notation "x <- c1 ;; c2" := (bind c1 (λ x, c2))
  (at level 100, c1 at next level, right associativity) : method_scope.
Notation "c1 ;; c2" := (bind c1 (λ _, c2))
  (at level 100, right associativity) : method_scope.
Local Open Scope method_scope.

(** The value a call returns and the matcher it leaves. *)
Definition outcome {A} (r : Outcome A * Matcher) : Outcome A := fst r.
Definition after {A} (r : Outcome A * Matcher) : Matcher := snd r.

(** ** [Array.prototype.sort] *)

Section Sort.
Context {A : Type} (cmp : A → A → Z).

(** [x] was before the elements of [l] in the array.  It goes before the
    first element it does not have to follow, so it stays ahead of the
    elements that compare equal to it. *)
Fixpoint insertSorted (x : A) (l : list A) : list A :=
  match l with
  | [] => [x]
  | y :: l' => if cmp x y <=? 0 then x :: y :: l' else y :: insertSorted x l'
  end.

Definition sortBy (l : list A) : list A := foldr insertSorted [] l.

(** [a] may stand before [b] in the sorted array. *)
Definition precedes (a b : A) : Prop := cmp a b ≤ 0.
End Sort.

(** ** The methods of [Matcher] *)

Definition getHistory : Method (list HistoryEntry) :=
  m <- this ;; ret (history m).

Definition getOverheadMade : Method Z :=
  m <- this ;; ret (overheadMade m).

(** [addUser (money, stock)]; [userid] is the result of [uuidv4()]. *)
Definition addUser (userid : string) (money stock : Z) : Method string :=
  let userbalance := {| money := money; stock := stock |} in
  assign (λ m, setUsers (<[userid := userbalance]> (users m)) m) ;;
  ret userid.

Definition getUsers : Method (gmap string Balance) :=
  m <- this ;; ret (users m).

Definition ZeroQuantityError : Exception :=
  Error "Orders for 0 are not allowed".
Definition UnexpectedActionError : Exception :=
  Error "Unexpected order action".
Definition NoBuyOrdersError : Exception :=
  Error "There aren't any buy orders".
Definition NoSellOrdersError : Exception :=
  Error "There aren't any sell orders".
Definition NoOverlapError : Exception :=
  Error "Can't process orders when they don't overlap".

(** [addOrderPreservingTimestamp (order)].  The argument has type [Order], so
    the [instanceof] test passes. *)
Definition addOrderPreservingTimestamp (order : Order) : Method unit :=
  if quantity order =? 0 then throw ZeroQuantityError
  else if String.eqb (action order) BUY then
    assign (λ m, setBuyOrders (buyOrders m ++ [order]) m)
  else if String.eqb (action order) SELL then
    assign (λ m, setSellOrders (sellOrders m ++ [order]) m)
  else throw UnexpectedActionError.

(** [addOrder (order)]; [now] is the reading of [moment()]. *)
Definition addOrder (order : Order) (now : Z) : Method unit :=
  let order := setTime now order in
  addOrderPreservingTimestamp order.

Definition getOrdersByAccount (acct : string) : Method (list Order) :=
  m <- this ;;
  let buys := filter (λ o, account o = acct) (buyOrders m) in
  let sells := filter (λ o, account o = acct) (sellOrders m) in
  ret (buys ++ sells).

(** The comparator of [getBestBuyOrder]. *)
Definition buyCompare (a b : Order) : Z :=
  if negb (0 =? price b - price a) then price b - price a
  else time a - time b.

Definition getBestBuyOrder : Method Order :=
  assign (λ m, setBuyOrders (sortBy buyCompare (buyOrders m)) m) ;;
  m <- this ;;
  match head (buyOrders m) with
  | None => throw NoBuyOrdersError
  | Some bestOrder => ret bestOrder
  end.

(** [arr.slice(0, n)] for an integer [n]; a negative [n] counts from the
    end. *)
Definition slice0 {A} (n : Z) (l : list A) : list A :=
  if n <? 0 then take (Z.to_nat (Z.of_nat (length l) + n)) l
  else take (Z.to_nat n) l.

Definition getBestNBuyOrders (n : Z) : Method (list Order) :=
  tryCatch
    (getBestBuyOrder ;; m <- this ;; ret (slice0 n (buyOrders m)))
    (λ _, ret []).

(** The comparator of [getBestSellOrder]. *)
Definition sellCompare (a b : Order) : Z :=
  if negb (0 =? price a - price b) then price a - price b
  else time a - time b.

Definition getBestSellOrder : Method Order :=
  assign (λ m, setSellOrders (sortBy sellCompare (sellOrders m)) m) ;;
  m <- this ;;
  match head (sellOrders m) with
  | None => throw NoSellOrdersError
  | Some bestOrder => ret bestOrder
  end.

Definition getBestNSellOrders (n : Z) : Method (list Order) :=
  tryCatch
    (getBestSellOrder ;; m <- this ;; ret (slice0 n (sellOrders m)))
    (λ _, ret []).

Definition hasFoundOverlap : Method bool :=
  tryCatch
    (bestBuyOrder <- getBestBuyOrder ;;
     bestSellOrder <- getBestSellOrder ;;
     ret (price bestSellOrder <? price bestBuyOrder))
    (λ _, ret false).

(** A property read on the result of [this.users[account]]: a [TypeError]
    when the account is not in the ledger. *)
Definition deref {A} (x : option A) : Method A :=
  match x with
  | Some a => ret a
  | None => throw TypeError
  end.

(** [Math.floor (a / b)] *)
Definition floorDiv (a b : Z) : Method Z :=
  if b =? 0 then throw NotAnInteger else ret (a / b).

(** [arr.shift()] on each book. *)
Definition shiftBuyOrders : Method unit :=
  assign (λ m, setBuyOrders (tail (buyOrders m)) m).
Definition shiftSellOrders : Method unit :=
  assign (λ m, setSellOrders (tail (sellOrders m)) m).

(** [processOrder ()]; [now] is the reading of [moment()] for the history
    entry. *)
Definition processOrder (now : Z) : Method unit :=
  overlap <- hasFoundOverlap ;;
  if negb overlap then throw NoOverlapError else
  bestBuyOrder <- getBestBuyOrder ;;
  bestSellOrder <- getBestSellOrder ;;
  m <- this ;;
  let sellingUser := users m !! account bestSellOrder in
  let buyingUser := users m !! account bestBuyOrder in
  let stockDelta := Z.min (quantity bestBuyOrder) (quantity bestSellOrder) in
  sellingUser <- deref sellingUser ;;
  let stockDelta :=
    if stock sellingUser <? quantity bestSellOrder then stock sellingUser
    else stockDelta in
  if stockDelta =? 0 then shiftSellOrders else
  let singleBuyCost := price bestBuyOrder in
  let totalBuyCost := singleBuyCost * stockDelta in
  buyingUser <- deref buyingUser ;;
  if money buyingUser <? singleBuyCost then shiftBuyOrders else
  limited <-
    (if money buyingUser <? totalBuyCost then
       stockDelta <- floorDiv (money buyingUser) singleBuyCost ;;
       ret (stockDelta, singleBuyCost * stockDelta)
     else ret (stockDelta, totalBuyCost)) ;;
  let stockDelta := fst limited in
  let totalBuyCost := snd limited in
  let totalSellCost := stockDelta * price bestSellOrder in
  let overhead := totalBuyCost - totalSellCost in
  assign (λ m, setOverheadMade (overheadMade m + overhead) m) ;;
  let newBuyerStock := stock buyingUser + stockDelta in
  let newSellerStock := stock sellingUser - stockDelta in
  let newBuyerMoney := money buyingUser - totalBuyCost in
  let newSellerMoney := money sellingUser + totalSellCost in
  assign (λ m, setUsers
    (<[account bestSellOrder :=
         {| money := newSellerMoney; stock := newSellerStock |}]>
       (<[account bestBuyOrder :=
            {| money := newBuyerMoney; stock := newBuyerStock |}]>
          (users m))) m) ;;
  (if stockDelta <? quantity bestBuyOrder then
     let newQuantity := quantity bestBuyOrder - stockDelta in
     addOrderPreservingTimestamp (setQuantity newQuantity bestBuyOrder)
   else ret tt) ;;
  (if stockDelta <? quantity bestSellOrder then
     let newQuantity := quantity bestSellOrder - stockDelta in
     addOrderPreservingTimestamp (setQuantity newQuantity bestSellOrder)
   else ret tt) ;;
  shiftBuyOrders ;;
  shiftSellOrders ;;
  let entry :=
    {| buyer := account bestBuyOrder; seller := account bestSellOrder;
       buyPrice := price bestBuyOrder; sellPrice := price bestSellOrder;
       tradeQuantity := stockDelta; tradeTime := now |} in
  assign (λ m, setHistory (history m ++ [entry]) m).

(** The statements of [processOrder] that follow the ledger update: the
    remainder orders, the two [shift]s and the history entry.  Named for the
    proofs; [processOrder_run] below shows it is the tail of [processOrder]. *)
Definition finishTrade (now : Z) (bestBuyOrder bestSellOrder : Order)
    (stockDelta : Z) : Method unit :=
  (if stockDelta <? quantity bestBuyOrder then
     let newQuantity := quantity bestBuyOrder - stockDelta in
     addOrderPreservingTimestamp (setQuantity newQuantity bestBuyOrder)
   else ret tt) ;;
  (if stockDelta <? quantity bestSellOrder then
     let newQuantity := quantity bestSellOrder - stockDelta in
     addOrderPreservingTimestamp (setQuantity newQuantity bestSellOrder)
   else ret tt) ;;
  shiftBuyOrders ;;
  shiftSellOrders ;;
  let entry :=
    {| buyer := account bestBuyOrder; seller := account bestSellOrder;
       buyPrice := price bestBuyOrder; sellPrice := price bestSellOrder;
       tradeQuantity := stockDelta; tradeTime := now |} in
  assign (λ m, setHistory (history m ++ [entry]) m).

(** ** Predicates on books and ledgers *)

(** [o] rests in one of the two books. *)
Definition booked (m : Matcher) (o : Order) : Prop :=
  o ∈ buyOrders m ∨ o ∈ sellOrders m.

(** Price-time priority: [o] is in the book, no order of the book has a
    better price, and no order with the same price arrived earlier. *)
Definition bestBid (book : list Order) (o : Order) : Prop :=
  o ∈ book ∧
  ∀ o', o' ∈ book → price o' < price o ∨ (price o' = price o ∧ time o ≤ time o').

Definition bestAsk (book : list Order) (o : Order) : Prop :=
  o ∈ book ∧
  ∀ o', o' ∈ book → price o < price o' ∨ (price o' = price o ∧ time o ≤ time o').

Definition balancesNonNegative (m : Matcher) : Prop :=
  ∀ acct bal, users m !! acct = Some bal → 0 ≤ money bal ∧ 0 ≤ stock bal.

(** Each book holds orders of its own side. *)
Definition sidesAgree (m : Matcher) : Prop :=
  Forall (λ o, action o = BUY) (buyOrders m) ∧
  Forall (λ o, action o = SELL) (sellOrders m).

(** Both books satisfy a predicate per side. *)
Definition booksSatisfy (PB PS : Order → Prop) (m : Matcher) : Prop :=
  Forall PB (buyOrders m) ∧ Forall PS (sellOrders m).

(** The states an engine reaches from [new Matcher()] through the methods of
    its API, when every order handed to [addOrder] satisfies [admissible].
    ([addOrderPreservingTimestamp] "is not part of the external API".) *)
Inductive reachableWith (admissible : Order → Prop) : Matcher → Prop :=
  | reach_new : reachableWith admissible newMatcher
  | reach_addUser m userid money stock :
      reachableWith admissible m →
      reachableWith admissible (after (addUser userid money stock m))
  | reach_addOrder m order now :
      admissible order →
      reachableWith admissible m →
      reachableWith admissible (after (addOrder order now m))
  | reach_getBestBuyOrder m :
      reachableWith admissible m →
      reachableWith admissible (after (getBestBuyOrder m))
  | reach_getBestSellOrder m :
      reachableWith admissible m →
      reachableWith admissible (after (getBestSellOrder m))
  | reach_getBestNBuyOrders m n :
      reachableWith admissible m →
      reachableWith admissible (after (getBestNBuyOrders n m))
  | reach_getBestNSellOrders m n :
      reachableWith admissible m →
      reachableWith admissible (after (getBestNSellOrders n m))
  | reach_hasFoundOverlap m :
      reachableWith admissible m →
      reachableWith admissible (after (hasFoundOverlap m))
  | reach_processOrder m now :
      reachableWith admissible m →
      reachableWith admissible (after (processOrder now m)).

Definition reachable : Matcher → Prop := reachableWith (λ _, True).

(** The books in priority order, as [getBestBuyOrder] and
    [getBestSellOrder] leave them. *)
Definition sortBuys : list Order → list Order := sortBy buyCompare.
Definition sortSells : list Order → list Order := sortBy sellCompare.

(** The remainder of an order filled for [sd] units, when there is one. *)
Definition remainder (sd : Z) (o : Order) : list Order :=
  if sd <? quantity o then [setQuantity (quantity o - sd) o] else [].

(** The history entry of a trade. *)
Definition tradeEntry (now : Z) (b s : Order) (sd : Z) : HistoryEntry :=
  {| buyer := account b; seller := account s;
     buyPrice := price b; sellPrice := price s;
     tradeQuantity := sd; tradeTime := now |}.

(** ** Example states

    Accounts and orders of [matcher.spec.js]. *)
Definition alice : string := "a11ce000-0000-4000-8000-000000000001".
Definition bob : string := "b0b00000-0000-4000-8000-000000000002".
Definition charlie : string := "c4a211e0-0000-4000-8000-000000000003".

(** [new Order({ account, price, quantity, action })]: no [time] yet, it is
    set by [addOrder]. *)
Definition newOrder (account : string) (price quantity : Z) (action : string)
    : Order :=
  {| account := account; price := price; quantity := quantity;
     action := action; time := 0 |}.

(** The ledger of two accounts, then a bid and an ask submitted at times 1
    and 2. *)
Definition twoAccounts (a : string) (am astock : Z) (b : string) (bm bstock : Z)
    : Matcher :=
  after (addUser b bm bstock (after (addUser a am astock newMatcher))).

Definition withOrders (bid ask : Order) (m : Matcher) : Matcher :=
  after (addOrder ask 2 (after (addOrder bid 1 m))).

(** "processes orders by moving money and stock between accounts" *)
Definition fullFill : Matcher :=
  withOrders (newOrder alice 1500 5 BUY) (newOrder bob 1000 5 SELL)
    (twoAccounts alice 15000 71 bob 19000 17).

(** "processes partial orders, preserving timestamp priority" *)
Definition partialFill : Matcher :=
  withOrders (newOrder alice 1500 6 BUY) (newOrder bob 1000 5 SELL)
    (twoAccounts alice 15000 71 bob 19000 17).

(** "refuses to allow users to pay more than they have" *)
Definition budgetCapped : Matcher :=
  withOrders (newOrder alice 10000 6 BUY) (newOrder bob 1000 5 SELL)
    (twoAccounts alice 15000 71 bob 19000 17).

(** "refuses to process orders when they do not overlap", with a second,
    better bid submitted after the first. *)
Definition noOverlap : Matcher :=
  after (addOrder (newOrder alice 1350 10 BUY) 3
    (withOrders (newOrder alice 1300 10 BUY) (newOrder bob 1400 12 SELL)
       (twoAccounts alice 15000 71 bob 19000 17))).

(** "removes sell orders for accounts without any stock" *)
Definition sellerWithoutStock : Matcher :=
  withOrders (newOrder alice 1500 5 BUY) (newOrder charlie 100 1 SELL)
    (twoAccounts alice 15000 71 charlie 43000 0).

(** One account on both sides of the market. *)
Definition selfTrade : Matcher :=
  withOrders (newOrder alice 1500 5 BUY) (newOrder alice 1000 5 SELL)
    (twoAccounts alice 15000 71 bob 19000 17).

(** "prefers older sell orders in the case of a tie", the two asks followed
    by a cheaper one. *)
Definition tiedAsks : Matcher :=
  after (addOrder (newOrder alice 1250 10 SELL) 3
    (after (addOrder (newOrder bob 1300 10 SELL) 2
       (after (addOrder (newOrder alice 1300 10 SELL) 1 newMatcher))))).

(** "removes buy orders for accounts without enough money": [charlie] has
    120 and bids 2000. *)
Definition buyerWithoutMoney : Matcher :=
  after (addOrder (newOrder charlie 2000 1 BUY) 3
    (withOrders (newOrder alice 1500 5 BUY) (newOrder bob 1000 5 SELL)
       (after (addUser charlie 120 4
          (twoAccounts alice 15000 71 bob 19000 17))))).

(** A bid for a negative quantity, from an account without stock. *)
Definition negativeBid : Matcher :=
  withOrders (newOrder alice 1500 (-5) BUY) (newOrder bob 1000 5 SELL)
    (twoAccounts alice 15000 0 bob 19000 17).

(** ** Sequences of calls, totals and priorities *)

(** A call of one method of the API, with its arguments and, where the
    method reads the clock or draws an identifier, what it read or drew. *)
Inductive Call : Type :=
  | CallAddUser (userid : string) (money stock : Z)
  | CallAddOrder (order : Order) (now : Z)
  | CallGetOrdersByAccount (acct : string)
  | CallGetBestBuyOrder
  | CallGetBestNBuyOrders (n : Z)
  | CallGetBestSellOrder
  | CallGetBestNSellOrders (n : Z)
  | CallHasFoundOverlap
  | CallProcessOrder (now : Z)
  | CallGetUsers
  | CallGetHistory
  | CallGetOverheadMade.

(** The matcher after a call, whether the call returned or threw. *)
Definition perform (c : Call) (m : Matcher) : Matcher :=
  match c with
  | CallAddUser userid money stock => after (addUser userid money stock m)
  | CallAddOrder order now => after (addOrder order now m)
  | CallGetOrdersByAccount acct => after (getOrdersByAccount acct m)
  | CallGetBestBuyOrder => after (getBestBuyOrder m)
  | CallGetBestNBuyOrders n => after (getBestNBuyOrders n m)
  | CallGetBestSellOrder => after (getBestSellOrder m)
  | CallGetBestNSellOrders n => after (getBestNSellOrders n m)
  | CallHasFoundOverlap => after (hasFoundOverlap m)
  | CallProcessOrder now => after (processOrder now m)
  | CallGetUsers => after (getUsers m)
  | CallGetHistory => after (getHistory m)
  | CallGetOverheadMade => after (getOverheadMade m)
  end.

Definition performAll (calls : list Call) (m : Matcher) : Matcher :=
  foldl (λ m c, perform c m) m calls.

(** The identifiers [addUser] was called with, and the number of calls of
    [processOrder]. *)
Definition addedUsers (calls : list Call) : gset string :=
  foldr (λ c acc, match c with
                  | CallAddUser userid _ _ => {[userid]} ∪ acc
                  | _ => acc
                  end) ∅ calls.

Definition settlements (calls : list Call) : nat :=
  foldr (λ c n, match c with CallProcessOrder _ => S n | _ => n end) 0%nat
    calls.

(** The money and the stock held by all accounts together. *)
Definition totalMoney (m : Matcher) : Z :=
  map_fold (λ _ bal acc, money bal + acc) 0 (users m).

Definition totalStock (m : Matcher) : Z :=
  map_fold (λ _ bal acc, stock bal + acc) 0 (users m).



(** [a] has priority over [b] among bids, among asks: a better price, or the
    same price and an arrival that is not later. *)
Definition bidPriority (a b : Order) : Prop :=
  price b < price a ∨ (price b = price a ∧ time a ≤ time b).

Definition askPriority (a b : Order) : Prop :=
  price a < price b ∨ (price b = price a ∧ time a ≤ time b).

(** The quantity [processOrder] settles on before it looks at the buyer's
    money. *)
Definition stockCapped (sellingUser : Balance) (bid ask : Order) : Z :=
  if stock sellingUser <? quantity ask then stock sellingUser
  else Z.min (quantity bid) (quantity ask).

(** An ask from an account that [addUser] never created. *)
Definition strangerAsk : Matcher :=
  withOrders (newOrder alice 1500 5 BUY) (newOrder charlie 1000 5 SELL)
    (twoAccounts alice 15000 71 bob 19000 17).

(** A bid for 2 against an ask for 10 from a seller who holds 5. *)
Definition shortSeller : Matcher :=
  withOrders (newOrder alice 1500 2 BUY) (newOrder bob 1000 10 SELL)
    (twoAccounts alice 15000 71 bob 19000 5).

(** ** Facts about sorting *)

Section SortFacts.
Context {A : Type} (cmp : A → A → Z).

Hypothesis cmp_total : ∀ a b, cmp a b ≤ 0 ∨ cmp b a ≤ 0.
Hypothesis cmp_trans : ∀ a b c, cmp a b ≤ 0 → cmp b c ≤ 0 → cmp a c ≤ 0.

Lemma insertSorted_perm x l : insertSorted cmp x l ≡ₚ x :: l.
Proof.
  induction l as [|y l IH]; simpl; [done|].
  destruct (cmp x y <=? 0); [done|].
  rewrite IH. apply Permutation_swap.
Qed.

Lemma sortBy_perm l : sortBy cmp l ≡ₚ l.
Proof.
  induction l as [|x l IH]; simpl; [done|].
  unfold sortBy in *. simpl. by rewrite insertSorted_perm, IH.
Qed.

Lemma insertSorted_sorted x l :
  StronglySorted (precedes cmp) l → StronglySorted (precedes cmp) (insertSorted cmp x l).
Proof.
  induction 1 as [|y l Hs IH Hy]; simpl.
  - repeat constructor.
  - destruct (Z.leb_spec (cmp x y) 0) as [Hxy|Hxy].
    + constructor; [by constructor|].
      constructor; [done|].
      eapply Forall_impl; [exact Hy|]. intros z Hz. by eapply cmp_trans.
    + constructor; [done|].
      rewrite insertSorted_perm. constructor; [|done].
      destruct (cmp_total x y); [lia|done].
Qed.

Lemma sortBy_sorted l : StronglySorted (precedes cmp) (sortBy cmp l).
Proof.
  induction l as [|x l IH]; [constructor|].
  by apply insertSorted_sorted.
Qed.

Lemma sortBy_fixed l : StronglySorted (precedes cmp) l → sortBy cmp l = l.
Proof.
  induction 1 as [|x l Hs IH Hx]; [done|].
  change (sortBy cmp (x :: l)) with (insertSorted cmp x (sortBy cmp l)).
  rewrite IH. destruct Hx as [|y l Hxy _]; [done|]. simpl.
  destruct (Z.leb_spec (cmp x y) 0); [done|]. unfold precedes in Hxy. lia.
Qed.

Lemma sortBy_idem l : sortBy cmp (sortBy cmp l) = sortBy cmp l.
Proof. apply sortBy_fixed, sortBy_sorted. Qed.

(** The first element of the sorted array precedes every element. *)
Lemma sortBy_head l x rest :
  sortBy cmp l = x :: rest → x ∈ l ∧ ∀ y, y ∈ l → cmp x y ≤ 0.
Proof.
  intros Heq. pose proof (sortBy_sorted l) as Hs.
  pose proof (sortBy_perm l) as Hp. rewrite Heq in Hs, Hp.
  split.
  - rewrite <- Hp. by left.
  - intros y Hy. rewrite <- Hp in Hy.
    apply StronglySorted_inv in Hs as [_ Hall].
    apply elem_of_cons in Hy as [->|Hy].
    + destruct (cmp_total x x); done.
    + rewrite Forall_forall in Hall. by apply Hall.
Qed.

Lemma sortBy_nil l : sortBy cmp l = [] → l = [].
Proof.
  intros Heq. apply Permutation_nil_r. by rewrite <- Heq, sortBy_perm.
Qed.
End SortFacts.

(** ** The two comparators *)

Lemma buyCompare_le a b :
  buyCompare a b ≤ 0 ↔
  price b < price a ∨ (price b = price a ∧ time a ≤ time b).
Proof.
  unfold buyCompare. destruct (Z.eqb_spec 0 (price b - price a)); simpl; lia.
Qed.

Lemma sellCompare_le a b :
  sellCompare a b ≤ 0 ↔
  price a < price b ∨ (price b = price a ∧ time a ≤ time b).
Proof.
  unfold sellCompare. destruct (Z.eqb_spec 0 (price a - price b)); simpl; lia.
Qed.

Lemma buyCompare_total a b : buyCompare a b ≤ 0 ∨ buyCompare b a ≤ 0.
Proof. rewrite !buyCompare_le. lia. Qed.

Lemma buyCompare_trans a b c :
  buyCompare a b ≤ 0 → buyCompare b c ≤ 0 → buyCompare a c ≤ 0.
Proof. rewrite !buyCompare_le. lia. Qed.

Lemma sellCompare_total a b : sellCompare a b ≤ 0 ∨ sellCompare b a ≤ 0.
Proof. rewrite !sellCompare_le. lia. Qed.

Lemma sellCompare_trans a b c :
  sellCompare a b ≤ 0 → sellCompare b c ≤ 0 → sellCompare a c ≤ 0.
Proof. rewrite !sellCompare_le. lia. Qed.

Lemma sortBuys_perm l : sortBuys l ≡ₚ l.
Proof. apply sortBy_perm. Qed.

Lemma sortSells_perm l : sortSells l ≡ₚ l.
Proof. apply sortBy_perm. Qed.

Lemma sortBuys_idem l : sortBuys (sortBuys l) = sortBuys l.
Proof. apply sortBy_idem; [apply buyCompare_total|apply buyCompare_trans]. Qed.

Lemma sortSells_idem l : sortSells (sortSells l) = sortSells l.
Proof. apply sortBy_idem; [apply sellCompare_total|apply sellCompare_trans]. Qed.

Lemma sortBuys_head l o rest : sortBuys l = o :: rest → bestBid l o.
Proof.
  intros Heq.
  destruct (sortBy_head buyCompare buyCompare_total buyCompare_trans _ _ _ Heq)
    as [Hin Hall].
  split; [done|]. intros o' Ho'. apply Hall, buyCompare_le in Ho'. lia.
Qed.

Lemma sortSells_head l o rest : sortSells l = o :: rest → bestAsk l o.
Proof.
  intros Heq.
  destruct (sortBy_head sellCompare sellCompare_total sellCompare_trans _ _ _ Heq)
    as [Hin Hall].
  split; [done|]. intros o' Ho'. apply Hall, sellCompare_le in Ho'. lia.
Qed.

Lemma sortBuys_nil l : sortBuys l = [] → l = [].
Proof. apply sortBy_nil. Qed.

Lemma sortSells_nil l : sortSells l = [] → l = [].
Proof. apply sortBy_nil. Qed.

(** Two best bids of one book have the same price; likewise for asks. *)
Lemma bestBid_price l o o' : bestBid l o → bestBid l o' → price o = price o'.
Proof. intros [Hin H] [Hin' H']. specialize (H _ Hin'). specialize (H' _ Hin). lia. Qed.

Lemma bestAsk_price l o o' : bestAsk l o → bestAsk l o' → price o = price o'.
Proof. intros [Hin H] [Hin' H']. specialize (H _ Hin'). specialize (H' _ Hin). lia. Qed.

(** ** Running the methods *)

Lemma bind_run {A B} (c : Method A) (k : A → Method B) m :
  bind c k m =
  match c m with
  | (Returned a, m') => k a m'
  | (Threw e, m') => (Threw e, m')
  end.
Proof. reflexivity. Qed.

Lemma getBestBuyOrder_run m :
  getBestBuyOrder m =
  (match sortBuys (buyOrders m) with
   | [] => Threw NoBuyOrdersError
   | bestOrder :: _ => Returned bestOrder
   end, setBuyOrders (sortBuys (buyOrders m)) m).
Proof.
  unfold getBestBuyOrder, bind, assign, this, sortBuys. simpl.
  by destruct (sortBy buyCompare (buyOrders m)).
Qed.

Lemma getBestSellOrder_run m :
  getBestSellOrder m =
  (match sortSells (sellOrders m) with
   | [] => Threw NoSellOrdersError
   | bestOrder :: _ => Returned bestOrder
   end, setSellOrders (sortSells (sellOrders m)) m).
Proof.
  unfold getBestSellOrder, bind, assign, this, sortSells. simpl.
  by destruct (sortBy sellCompare (sellOrders m)).
Qed.

Lemma hasFoundOverlap_run m :
  hasFoundOverlap m =
  match sortBuys (buyOrders m) with
  | [] => (Returned false, setBuyOrders [] m)
  | b :: bs =>
    let m1 := setSellOrders (sortSells (sellOrders m)) (setBuyOrders (b :: bs) m) in
    match sortSells (sellOrders m) with
    | [] => (Returned false, m1)
    | s :: _ => (Returned (price s <? price b), m1)
    end
  end.
Proof.
  unfold hasFoundOverlap, tryCatch. rewrite bind_run, getBestBuyOrder_run.
  destruct (sortBuys (buyOrders m)) as [|b bs]; [done|].
  rewrite bind_run, getBestSellOrder_run. simpl.
  by destruct (sortSells (sellOrders m)).
Qed.

Lemma processOrder_run now m :
  processOrder now m =
  match sortBuys (buyOrders m) with
  | [] => (Threw NoOverlapError, setBuyOrders [] m)
  | b :: bs =>
    let m1 := setSellOrders (sortSells (sellOrders m)) (setBuyOrders (b :: bs) m) in
    match sortSells (sellOrders m) with
    | [] => (Threw NoOverlapError, m1)
    | s :: ss =>
      if price s <? price b then
        match users m !! account s with
        | None => (Threw TypeError, m1)
        | Some su =>
          let sd := if stock su <? quantity s then stock su
                    else Z.min (quantity b) (quantity s) in
          if sd =? 0 then (Returned tt, setSellOrders ss m1) else
          match users m !! account b with
          | None => (Threw TypeError, m1)
          | Some bu =>
            if money bu <? price b then (Returned tt, setBuyOrders bs m1) else
            if (money bu <? price b * sd) && (price b =? 0)
            then (Threw NotAnInteger, m1) else
            let sd' := if money bu <? price b * sd then money bu / price b
                       else sd in
            finishTrade now b s sd'
              (setUsers
                 (<[account s := {| money := money su + sd' * price s;
                                    stock := stock su - sd' |}]>
                    (<[account b := {| money := money bu - price b * sd';
                                       stock := stock bu + sd' |}]>
                       (users m)))
                 (setOverheadMade
                    (overheadMade m + (price b * sd' - sd' * price s)) m1))
          end
        end
      else (Threw NoOverlapError, m1)
    end
  end.
Proof.
  unfold processOrder. rewrite bind_run, hasFoundOverlap_run.
  destruct (sortBuys (buyOrders m)) as [|b bs] eqn:Hb; [done|].
  destruct (sortSells (sellOrders m)) as [|s ss] eqn:Hs; [done|].
  cbv zeta. destruct (price s <? price b); [|done].
  cbv [negb]. rewrite bind_run, getBestBuyOrder_run.
  assert (sortBuys (b :: bs) = b :: bs) as Hb'
    by (rewrite <- Hb; apply sortBuys_idem).
  assert (sortSells (s :: ss) = s :: ss) as Hs'
    by (rewrite <- Hs; apply sortSells_idem).
  cbn [buyOrders setSellOrders setBuyOrders]. rewrite Hb'.
  rewrite bind_run, getBestSellOrder_run.
  cbn [sellOrders setSellOrders setBuyOrders buyOrders overheadMade users history].
  rewrite Hs'.
  rewrite bind_run. cbn [this users setSellOrders setBuyOrders].
  rewrite bind_run.
  destruct (users m !! account s) as [su|]; [|done]. cbn [deref ret].
  set (sd := if stock su <? quantity s then stock su
             else Z.min (quantity b) (quantity s)).
  destruct (sd =? 0); [done|].
  rewrite bind_run.
  destruct (users m !! account b) as [bu|]; [|done]. cbn [deref ret].
  destruct (money bu <? price b); [done|].
  rewrite bind_run.
  destruct (money bu <? price b * sd); cbn [andb].
  - rewrite bind_run. unfold floorDiv.
    destruct (price b =? 0); [done|]. cbn [ret fst snd].
    reflexivity.
  - cbn [ret fst snd]. reflexivity.
Qed.

Lemma addOrderPreservingTimestamp_run order m :
  addOrderPreservingTimestamp order m =
  if quantity order =? 0 then (Threw ZeroQuantityError, m)
  else if String.eqb (action order) BUY
       then (Returned tt, setBuyOrders (buyOrders m ++ [order]) m)
  else if String.eqb (action order) SELL
       then (Returned tt, setSellOrders (sellOrders m ++ [order]) m)
  else (Threw UnexpectedActionError, m).
Proof.
  unfold addOrderPreservingTimestamp.
  by repeat match goal with |- context [if ?c then _ else _] => destruct c end.
Qed.

(** A failed admission changes nothing. *)
Lemma addOrderPreservingTimestamp_threw order m e :
  outcome (addOrderPreservingTimestamp order m) = Threw e →
  after (addOrderPreservingTimestamp order m) = m.
Proof.
  rewrite addOrderPreservingTimestamp_run.
  by repeat match goal with |- context [if ?c then _ else _] => destruct c end.
Qed.

(** Admission touches neither the ledger, nor the overhead, nor the
    history. *)
Lemma addOrderPreservingTimestamp_frame order m :
  let m' := after (addOrderPreservingTimestamp order m) in
  users m' = users m ∧ overheadMade m' = overheadMade m ∧ history m' = history m.
Proof.
  rewrite addOrderPreservingTimestamp_run.
  by repeat match goal with |- context [if ?c then _ else _] => destruct c end.
Qed.

(** ** Best-order selection and overlap detection *)

(** C4. On a non-empty bid book [getBestBuyOrder] returns an order of the
    book whose price is the highest, and which arrived no later than any
    other order at that price; on a non-empty ask book [getBestSellOrder]
    returns an order whose price is the lowest, with the same tie-break. *)
Theorem getBestOrder_price_time_priority m :
  (buyOrders m ≠ [] →
   ∃ o, outcome (getBestBuyOrder m) = Returned o ∧ bestBid (buyOrders m) o) ∧
  (sellOrders m ≠ [] →
   ∃ o, outcome (getBestSellOrder m) = Returned o ∧ bestAsk (sellOrders m) o).
Proof.
  split; intros Hne.
  - rewrite getBestBuyOrder_run.
    destruct (sortBuys (buyOrders m)) as [|o rest] eqn:Heq.
    + by apply sortBuys_nil in Heq.
    + exists o. split; [done|]. by eapply sortBuys_head.
  - rewrite getBestSellOrder_run.
    destruct (sortSells (sellOrders m)) as [|o rest] eqn:Heq.
    + by apply sortSells_nil in Heq.
    + exists o. split; [done|]. by eapply sortSells_head.
Qed.

(** C3. [hasFoundOverlap] always returns a boolean, never throws; the
    boolean is [true] exactly when both books are non-empty and the best
    bid's price is strictly above the best ask's price.  So it is [false]
    when the two best prices are equal, and [false] when a book is empty. *)
Theorem hasFoundOverlap_iff m :
  ∃ b, outcome (hasFoundOverlap m) = Returned b ∧
    (b = true ↔
       buyOrders m ≠ [] ∧ sellOrders m ≠ [] ∧
       ∃ bid ask, bestBid (buyOrders m) bid ∧ bestAsk (sellOrders m) ask ∧
                  price ask < price bid) ∧
    (∀ bid ask, bestBid (buyOrders m) bid → bestAsk (sellOrders m) ask →
                price bid = price ask → b = false) ∧
    (buyOrders m = [] ∨ sellOrders m = [] → b = false).
Proof.
  rewrite hasFoundOverlap_run.
  destruct (sortBuys (buyOrders m)) as [|bid bs] eqn:Hb.
  { apply sortBuys_nil in Hb. exists false. rewrite Hb.
    repeat split; try done. intros (? & _); done. }
  apply sortBuys_head in Hb as Hbid.
  assert (buyOrders m ≠ []) as Hbne.
  { intros Hnil. destruct Hbid as [Hin _]. rewrite Hnil in Hin. by apply elem_of_nil in Hin. }
  cbv zeta.
  destruct (sortSells (sellOrders m)) as [|ask ss] eqn:Hs.
  { apply sortSells_nil in Hs. exists false. rewrite Hs.
    repeat split; try done. intros (_ & ? & _); done. }
  apply sortSells_head in Hs as Hask.
  assert (sellOrders m ≠ []) as Hsne.
  { intros Hnil. destruct Hask as [Hin _]. rewrite Hnil in Hin. by apply elem_of_nil in Hin. }
  exists (price ask <? price bid). split; [done|]. split; [|split].
  - rewrite Z.ltb_lt. split.
    + intros Hlt. repeat split; try done. by exists bid, ask.
    + intros (_ & _ & bid' & ask' & Hbid' & Hask' & Hlt).
      rewrite (bestBid_price _ _ _ Hbid Hbid'), (bestAsk_price _ _ _ Hask Hask'). done.
  - intros bid' ask' Hbid' Hask' Heq. apply Z.ltb_ge.
    rewrite (bestBid_price _ _ _ Hbid Hbid'), (bestAsk_price _ _ _ Hask Hask'). lia.
  - intros [?|?]; done.
Qed.

(** ** Settlement: the failure and eviction paths *)

(** C7. When [hasFoundOverlap] is false, [processOrder] throws the
    no-overlap error and leaves the ledger, the overhead total and the
    history as they were, and each book with the orders it had.  A book is an
    unordered collection of orders; the overlap test sorts the two arrays in
    place, so the arrays are equal up to order, and the whole matcher is
    equal to what it was when the arrays were in priority order already.  A
    call of [addOrder] that throws leaves the whole matcher as it was. *)
Theorem failures_leave_state m now order :
  (outcome (hasFoundOverlap m) = Returned false →
   outcome (processOrder now m) = Threw NoOverlapError ∧
   buyOrders (after (processOrder now m)) ≡ₚ buyOrders m ∧
   sellOrders (after (processOrder now m)) ≡ₚ sellOrders m ∧
   users (after (processOrder now m)) = users m ∧
   overheadMade (after (processOrder now m)) = overheadMade m ∧
   history (after (processOrder now m)) = history m ∧
   (sortBuys (buyOrders m) = buyOrders m →
    sortSells (sellOrders m) = sellOrders m →
    after (processOrder now m) = m)) ∧
  (∀ e, outcome (addOrder order now m) = Threw e →
        after (addOrder order now m) = m).
Proof.
  split.
  - rewrite hasFoundOverlap_run, processOrder_run.
    pose proof (sortBuys_perm (buyOrders m)) as Hpb.
    pose proof (sortSells_perm (sellOrders m)) as Hps.
    destruct m as [buys sells overhead ledger trades].
    cbn [buyOrders sellOrders users overheadMade history] in *.
    destruct (sortBuys buys) as [|b bs].
    { intros _. apply Permutation_nil_l in Hpb as <-. done. }
    cbv zeta. destruct (sortSells sells) as [|s ss].
    { intros _. repeat split; try done. by intros <- <-. }
    unfold outcome at 1. cbn [fst]. intros [= ->].
    repeat split; try done. by intros <- <-.
  - intros e. unfold addOrder. apply addOrderPreservingTimestamp_threw.
Qed.

(** C8. With an overlap, when the quantity matched after the cap by the
    seller's stock is zero, [processOrder] returns normally having removed
    the best ask from the ask book; it records no trade and no overhead and
    changes no balance, and the bid book keeps its orders (it is the same
    unordered collection: the array was put in priority order). *)
Theorem processOrder_evicts_unfulfillable_ask m now bid ask sellingUser :
  outcome (hasFoundOverlap m) = Returned true →
  outcome (getBestBuyOrder m) = Returned bid →
  outcome (getBestSellOrder m) = Returned ask →
  users m !! account ask = Some sellingUser →
  (if stock sellingUser <? quantity ask then stock sellingUser
   else Z.min (quantity bid) (quantity ask)) = 0 →
  outcome (processOrder now m) = Returned tt ∧
  sellOrders (after (processOrder now m)) = tail (sortSells (sellOrders m)) ∧
  ask :: sellOrders (after (processOrder now m)) ≡ₚ sellOrders m ∧
  buyOrders (after (processOrder now m)) = sortBuys (buyOrders m) ∧
  buyOrders (after (processOrder now m)) ≡ₚ buyOrders m ∧
  users (after (processOrder now m)) = users m ∧
  overheadMade (after (processOrder now m)) = overheadMade m ∧
  history (after (processOrder now m)) = history m.
Proof.
  rewrite hasFoundOverlap_run, getBestBuyOrder_run, getBestSellOrder_run,
    processOrder_run.
  pose proof (sortBuys_perm (buyOrders m)) as Hpb.
  pose proof (sortSells_perm (sellOrders m)) as Hps.
  destruct (sortBuys (buyOrders m)) as [|b bs]; [done|].
  destruct (sortSells (sellOrders m)) as [|s ss]; [done|].
  unfold outcome. cbn [fst]. intros [= Hlt] [= ->] [= ->] Hsu Hzero.
  rewrite Hlt, Hsu. cbv zeta. rewrite Hzero. done.
Qed.

(** ** Settlement: the trade path *)

Lemma finishTrade_frame now b s sd m :
  users (after (finishTrade now b s sd m)) = users m ∧
  overheadMade (after (finishTrade now b s sd m)) = overheadMade m.
Proof.
  unfold finishTrade. rewrite !bind_run.
  destruct (sd <? quantity b), (sd <? quantity s);
    rewrite ?addOrderPreservingTimestamp_run;
    repeat match goal with
           | |- context [if ?c then _ else _] => destruct c
           end; try done;
    cbn [ret]; rewrite ?bind_run, ?addOrderPreservingTimestamp_run;
    repeat match goal with
           | |- context [if ?c then _ else _] => destruct c
           end; done.
Qed.

Lemma finishTrade_run now b s sd m :
  action b = BUY → action s = SELL →
  finishTrade now b s sd m =
  (Returned tt,
   {| buyOrders := tail (buyOrders m ++ remainder sd b);
      sellOrders := tail (sellOrders m ++ remainder sd s);
      overheadMade := overheadMade m;
      users := users m;
      history := history m ++ [tradeEntry now b s sd] |}).
Proof.
  intros Hb Hs. unfold finishTrade, remainder. rewrite !bind_run.
  destruct (Z.ltb_spec sd (quantity b)) as [Hqb|Hqb];
    destruct (Z.ltb_spec sd (quantity s)) as [Hqs|Hqs];
    rewrite ?addOrderPreservingTimestamp_run; cbn [quantity action setQuantity];
    rewrite ?Hb, ?Hs; cbn [String.eqb Ascii.eqb Bool.eqb BUY SELL ret].
  - destruct (Z.eqb_spec (quantity b - sd) 0); [lia|].
    rewrite bind_run, addOrderPreservingTimestamp_run. cbn [quantity action setQuantity].
    rewrite Hs. cbn [String.eqb Ascii.eqb Bool.eqb BUY SELL].
    destruct (Z.eqb_spec (quantity s - sd) 0); [lia|]. done.
  - destruct (Z.eqb_spec (quantity b - sd) 0); [lia|].
    rewrite bind_run. cbn [ret]. unfold shiftBuyOrders, shiftSellOrders, bind, assign.
    cbn. by rewrite app_nil_r.
  - rewrite bind_run, addOrderPreservingTimestamp_run. cbn [quantity action setQuantity].
    rewrite Hs. cbn [String.eqb Ascii.eqb Bool.eqb BUY SELL].
    destruct (Z.eqb_spec (quantity s - sd) 0); [lia|].
    unfold shiftBuyOrders, shiftSellOrders, bind, assign.
    cbn. by rewrite app_nil_r.
  - rewrite bind_run. cbn [ret]. unfold shiftBuyOrders, shiftSellOrders, bind, assign.
    cbn. by rewrite !app_nil_r.
Qed.

(** The quantity that is traded lies between 1 and the seller's stock, and
    the buyer can pay for it. *)
Lemma traded_quantity_bounds (qb qs pb ps mb ss sd sd' : Z) :
  0 ≤ qb → 0 ≤ qs → 0 ≤ ps → ps < pb → 0 ≤ ss →
  sd = (if ss <? qs then ss else Z.min qb qs) →
  sd ≠ 0 → pb ≤ mb →
  sd' = (if mb <? pb * sd then mb / pb else sd) →
  0 ≤ sd' ∧ sd' ≤ ss ∧ pb * sd' ≤ mb ∧ 0 ≤ sd' * ps.
Proof.
  intros Hqb Hqs Hps Hlt Hss Hsd Hnz Hmb Hsd'.
  assert (0 ≤ sd ∧ sd ≤ ss) as [Hsd0 Hsdss].
  { subst sd. destruct (Z.ltb_spec ss qs); lia. }
  assert (0 ≤ sd' ∧ sd' ≤ sd ∧ pb * sd' ≤ mb) as (H0 & Hle & Hpay).
  { subst sd'. destruct (Z.ltb_spec mb (pb * sd)) as [Hcap|Hcap]; [|lia].
    split; [apply Z.div_pos; lia|].
    split; [|apply Z.mul_div_le; lia].
    apply Z.lt_le_incl, Z.div_lt_upper_bound; lia. }
  repeat split; try lia; apply Z.mul_nonneg_nonneg; lia.
Qed.

Lemma sorted_head_booked m b bs s ss :
  sortBuys (buyOrders m) = b :: bs → sortSells (sellOrders m) = s :: ss →
  booked m b ∧ booked m s.
Proof.
  intros Hb Hs. split; [left|right].
  - rewrite <- (sortBuys_perm (buyOrders m)), Hb. by left.
  - rewrite <- (sortSells_perm (sellOrders m)), Hs. by left.
Qed.

(** C1, amended.  From a state where every balance has non-negative money and
    stock and every booked order has a non-negative price and a non-negative
    quantity, [processOrder] leaves every balance with non-negative money and
    stock, whatever it returns or throws. *)
Theorem processOrder_keeps_balances_non_negative m now :
  balancesNonNegative m →
  (∀ o, booked m o → 0 ≤ price o) →
  (∀ o, booked m o → 0 ≤ quantity o) →
  balancesNonNegative (after (processOrder now m)).
Proof.
  intros Hbal Hprice Hqty. rewrite processOrder_run.
  destruct (sortBuys (buyOrders m)) as [|b bs] eqn:Hb; [done|].
  cbv zeta.
  destruct (sortSells (sellOrders m)) as [|s ss] eqn:Hs; [done|].
  destruct (sorted_head_booked _ _ _ _ _ Hb Hs) as [Hbb Hbs].
  destruct (Z.ltb_spec (price s) (price b)) as [Hlt|]; [|done].
  destruct (users m !! account s) as [su|] eqn:Hsu; [|done].
  destruct (_ =? 0) eqn:Hnz; [done|]. apply Z.eqb_neq in Hnz.
  destruct (users m !! account b) as [bu|] eqn:Hbu; [|done].
  destruct (Z.ltb_spec (money bu) (price b)) as [|Hafford]; [done|].
  destruct (_ && _); [done|].
  match goal with |- context [finishTrade now b s ?q] => set (sd' := q) end.
  destruct (Hbal _ _ Hsu) as [Hsum Hsus]. destruct (Hbal _ _ Hbu) as [Hbum Hbus].
  destruct (traded_quantity_bounds (quantity b) (quantity s) (price b) (price s)
              (money bu) (stock su) _ sd' (Hqty _ Hbb) (Hqty _ Hbs)
              (Hprice _ Hbs) Hlt Hsus eq_refl Hnz Hafford eq_refl)
    as (H0 & Hle & Hpay & Hsell).
  intros acct bal. rewrite (proj1 (finishTrade_frame _ _ _ _ _)).
  cbn [users setUsers]. rewrite lookup_insert. case_decide.
  { intros [= <-]. cbn. lia. }
  rewrite lookup_insert. case_decide.
  { intros [= <-]. cbn. lia. }
  apply Hbal.
Qed.

(** C10. When every booked price is non-negative, [processOrder] never
    divides by zero: without an overlap it throws before any arithmetic, and
    with an overlap the best bid's price, the divisor, is at least 1 because
    it is strictly above the best ask's non-negative price. *)
Theorem budget_cap_division_defined m now :
  (∀ o, booked m o → 0 ≤ price o) →
  outcome (processOrder now m) ≠ Threw NotAnInteger ∧
  (outcome (hasFoundOverlap m) = Returned false →
   outcome (processOrder now m) = Threw NoOverlapError) ∧
  (outcome (hasFoundOverlap m) = Returned true →
   ∃ bid ask, outcome (getBestBuyOrder m) = Returned bid ∧
              outcome (getBestSellOrder m) = Returned ask ∧
              0 ≤ price ask ∧ price ask < price bid ∧ 1 ≤ price bid).
Proof.
  intros Hprice.
  rewrite processOrder_run, hasFoundOverlap_run, getBestBuyOrder_run,
    getBestSellOrder_run.
  destruct (sortBuys (buyOrders m)) as [|b bs] eqn:Hb; [done|].
  cbv zeta.
  destruct (sortSells (sellOrders m)) as [|s ss] eqn:Hs; [done|].
  destruct (sorted_head_booked _ _ _ _ _ Hb Hs) as [Hbb Hbs].
  apply Hprice in Hbs.
  destruct (Z.ltb_spec (price s) (price b)) as [Hlt|]; [|done].
  split; [|split; [done|]].
  - destruct (users m !! account s) as [su|]; [|done].
    destruct (_ =? 0); [done|].
    destruct (users m !! account b) as [bu|]; [|done].
    destruct (_ <? price b); [done|].
    destruct (Z.eqb_spec (price b) 0) as [|_]; [lia|]. rewrite andb_false_r.
    unfold outcome, finishTrade. rewrite !bind_run.
    repeat match goal with
           | |- context [if ?c then _ else _] => destruct c
           end;
      rewrite ?addOrderPreservingTimestamp_run;
      repeat match goal with
             | |- context [if ?c then _ else _] => destruct c
             end; try done;
      cbn [ret]; rewrite ?bind_run, ?addOrderPreservingTimestamp_run;
      repeat match goal with
             | |- context [if ?c then _ else _] => destruct c
             end; done.
  - intros _. exists b, s. repeat split; try done. lia.
Qed.

(** ** Invariants of the books *)

Section BookInvariant.
Context (admissible PB PS : Order → Prop).

Hypothesis PB_side : ∀ o, PB o → action o = BUY.
Hypothesis PS_side : ∀ o, PS o → action o = SELL.
Hypothesis PB_remainder : ∀ o q, PB o → 0 < q → PB (setQuantity q o).
Hypothesis PS_remainder : ∀ o q, PS o → 0 < q → PS (setQuantity q o).
Hypothesis PB_admitted :
  ∀ o now, admissible o → quantity o ≠ 0 → action o = BUY → PB (setTime now o).
Hypothesis PS_admitted :
  ∀ o now, admissible o → quantity o ≠ 0 → action o = SELL → PS (setTime now o).

Lemma addOrder_books m order now :
  admissible order → booksSatisfy PB PS m →
  booksSatisfy PB PS (after (addOrder order now m)).
Proof.
  intros Hadm [Hb Hs]. unfold addOrder.
  rewrite addOrderPreservingTimestamp_run. cbn [quantity action setTime].
  destruct (Z.eqb_spec (quantity order) 0) as [|Hq]; [done|].
  destruct (String.eqb_spec (action order) BUY) as [Hbuy|_].
  { split; [|done]. apply Forall_app. split; [done|]. constructor; [|done].
    by apply PB_admitted. }
  destruct (String.eqb_spec (action order) SELL) as [Hsell|_]; [|done].
  split; [done|]. apply Forall_app. split; [done|]. constructor; [|done].
  by apply PS_admitted.
Qed.

Lemma getBestBuyOrder_books m :
  booksSatisfy PB PS m → booksSatisfy PB PS (after (getBestBuyOrder m)).
Proof.
  intros [Hb Hs]. rewrite getBestBuyOrder_run. split; [|done].
  cbn. by rewrite sortBuys_perm.
Qed.

Lemma getBestSellOrder_books m :
  booksSatisfy PB PS m → booksSatisfy PB PS (after (getBestSellOrder m)).
Proof.
  intros [Hb Hs]. rewrite getBestSellOrder_run. split; [done|].
  cbn. by rewrite sortSells_perm.
Qed.

Lemma getBestNBuyOrders_books m n :
  booksSatisfy PB PS m → booksSatisfy PB PS (after (getBestNBuyOrders n m)).
Proof.
  intros H. apply getBestBuyOrder_books in H. revert H.
  unfold getBestNBuyOrders, tryCatch. rewrite bind_run.
  by destruct (getBestBuyOrder m) as [[o|e] m'].
Qed.

Lemma getBestNSellOrders_books m n :
  booksSatisfy PB PS m → booksSatisfy PB PS (after (getBestNSellOrders n m)).
Proof.
  intros H. apply getBestSellOrder_books in H. revert H.
  unfold getBestNSellOrders, tryCatch. rewrite bind_run.
  by destruct (getBestSellOrder m) as [[o|e] m'].
Qed.

Lemma sorted_books m :
  booksSatisfy PB PS m →
  Forall PB (sortBuys (buyOrders m)) ∧ Forall PS (sortSells (sellOrders m)).
Proof. intros [Hb Hs]. by rewrite sortBuys_perm, sortSells_perm. Qed.

Lemma hasFoundOverlap_books m :
  booksSatisfy PB PS m → booksSatisfy PB PS (after (hasFoundOverlap m)).
Proof.
  intros H. destruct (sorted_books _ H) as [Hb Hs]. destruct H as [_ Hs0].
  rewrite hasFoundOverlap_run.
  destruct (sortBuys (buyOrders m)) as [|b bs]; [done|].
  cbv zeta. by destruct (sortSells (sellOrders m)).
Qed.

Lemma remainder_books (P : Order → Prop) sd o rest :
  (∀ o q, P o → 0 < q → P (setQuantity q o)) →
  P o → Forall P rest → Forall P (tail ((o :: rest) ++ remainder sd o)).
Proof.
  intros Hrem Ho Hrest. cbn. apply Forall_app. split; [done|].
  unfold remainder. destruct (Z.ltb_spec sd (quantity o)); [|done].
  constructor; [|done]. apply Hrem; [done|lia].
Qed.

Lemma processOrder_books m now :
  booksSatisfy PB PS m → booksSatisfy PB PS (after (processOrder now m)).
Proof.
  intros H. destruct (sorted_books _ H) as [Hb Hs]. destruct H as [_ Hs0].
  rewrite processOrder_run.
  destruct (sortBuys (buyOrders m)) as [|b bs]; [done|].
  cbv zeta.
  destruct (sortSells (sellOrders m)) as [|s ss]; [done|].
  apply Forall_cons in Hb as [Hb Hbs]. apply Forall_cons in Hs as [Hs Hss].
  assert (Forall PB (b :: bs)) as Hbb by by constructor.
  assert (Forall PS (s :: ss)) as Hsb by by constructor.
  destruct (price s <? price b); [|done].
  destruct (users m !! account s) as [su|]; [|done].
  destruct (_ =? 0); [done|].
  destruct (users m !! account b) as [bu|]; [|done].
  destruct (_ <? price b); [done|].
  destruct (_ && _); [done|].
  rewrite finishTrade_run by auto. split; cbn -[remainder].
  - by apply (remainder_books PB).
  - by apply (remainder_books PS).
Qed.

Lemma reachableWith_books m :
  reachableWith admissible m → booksSatisfy PB PS m.
Proof.
  induction 1 as [|m userid money0 stock0 _ IH|m order now Hadm _ IH
                  |m _ IH|m _ IH|m n _ IH|m n _ IH|m _ IH|m now _ IH].
  - by split.
  - exact IH.
  - by apply addOrder_books.
  - by apply getBestBuyOrder_books.
  - by apply getBestSellOrder_books.
  - by apply getBestNBuyOrders_books.
  - by apply getBestNSellOrders_books.
  - by apply hasFoundOverlap_books.
  - by apply processOrder_books.
Qed.
End BookInvariant.

Lemma reachable_sidesAgree m : reachable m → sidesAgree m.
Proof.
  apply (reachableWith_books (λ _, True)
           (λ o, action o = BUY) (λ o, action o = SELL)); auto.
Qed.

Lemma reachableWith_weaken (P Q : Order → Prop) m :
  (∀ o, P o → Q o) → reachableWith P m → reachableWith Q m.
Proof.
  intros HPQ. induction 1; try (by constructor). constructor; auto.
Qed.

(** C9, amended.  In every state reached by submitting orders of non-negative
    quantity, every order in either book has quantity > 0: [addOrder] stores
    no order of quantity zero, and [processOrder] stores no remainder of
    quantity zero or less. *)
Theorem booked_quantities_positive m :
  reachableWith (λ o, 0 ≤ quantity o) m →
  ∀ o, booked m o → 0 < quantity o.
Proof.
  intros Hreach.
  destruct (reachableWith_books (λ o, 0 ≤ quantity o)
              (λ o, action o = BUY ∧ 0 < quantity o)
              (λ o, action o = SELL ∧ 0 < quantity o)) with (m := m)
    as [Hb Hs]; try done.
  - by intros o [? _].
  - by intros o [? _].
  - by intros o q [? _] ?.
  - by intros o q [? _] ?.
  - intros o now ? ? ?. cbn. split; [done|lia].
  - intros o now ? ? ?. cbn. split; [done|lia].
  - rewrite Forall_forall in Hb, Hs.
    intros o [Ho|Ho]; [by apply Hb|by apply Hs].
Qed.

(** ** Settlement: what a trade does *)

Lemma finishTrade_history now b s sd m :
  history (after (finishTrade now b s sd m)) = history m ∨
  (outcome (finishTrade now b s sd m) = Returned tt ∧
   history (after (finishTrade now b s sd m)) =
     history m ++ [tradeEntry now b s sd]).
Proof.
  unfold finishTrade. rewrite !bind_run.
  destruct (sd <? quantity b), (sd <? quantity s);
    rewrite ?addOrderPreservingTimestamp_run;
    repeat match goal with
           | |- context [if ?c then _ else _] => destruct c
           end; try (by left); try (by right);
    cbn [ret]; rewrite ?bind_run, ?addOrderPreservingTimestamp_run;
    repeat match goal with
           | |- context [if ?c then _ else _] => destruct c
           end; try (by left); by right.
Qed.

Lemma history_not_grown {A} (l : list A) x : l = l ++ [x] → False.
Proof.
  intros H. apply (f_equal length) in H. rewrite length_app in H.
  simpl in H. lia.
Qed.

(** What [processOrder] did when the history has one more entry: the entry
    describes the two best orders, and the ledger and the overhead were
    updated with the traded quantity. *)
Lemma processOrder_traded m now entry :
  history (after (processOrder now m)) = history m ++ [entry] →
  ∃ b bs s ss bu su,
    sortBuys (buyOrders m) = b :: bs ∧ sortSells (sellOrders m) = s :: ss ∧
    users m !! account b = Some bu ∧ users m !! account s = Some su ∧
    entry = tradeEntry now b s (tradeQuantity entry) ∧
    processOrder now m =
      finishTrade now b s (tradeQuantity entry)
        (setUsers
           (<[account s :=
                {| money := money su + tradeQuantity entry * price s;
                   stock := stock su - tradeQuantity entry |}]>
              (<[account b :=
                   {| money := money bu - price b * tradeQuantity entry;
                      stock := stock bu + tradeQuantity entry |}]>
                 (users m)))
           (setOverheadMade
              (overheadMade m +
                 (price b * tradeQuantity entry - tradeQuantity entry * price s))
              (setSellOrders (s :: ss) (setBuyOrders (b :: bs) m)))).
Proof.
  rewrite processOrder_run.
  destruct (sortBuys (buyOrders m)) as [|b bs];
    [by intros ?%history_not_grown|].
  cbv zeta.
  destruct (sortSells (sellOrders m)) as [|s ss];
    [by intros ?%history_not_grown|].
  destruct (price s <? price b); [|by intros ?%history_not_grown].
  destruct (users m !! account s) as [su|] eqn:Hsu;
    [|by intros ?%history_not_grown].
  destruct (_ =? 0); [by intros ?%history_not_grown|].
  destruct (users m !! account b) as [bu|] eqn:Hbu;
    [|by intros ?%history_not_grown].
  destruct (_ <? price b); [by intros ?%history_not_grown|].
  destruct (_ && _); [by intros ?%history_not_grown|].
  match goal with |- context [finishTrade now b s ?q] => generalize q end.
  intros sd Hhist.
  match type of Hhist with
  | history (after (finishTrade _ _ _ _ ?m2)) = _ =>
      destruct (finishTrade_history now b s sd m2) as [Hsame|[_ Hgrown]]
  end.
  - rewrite Hsame in Hhist. cbn in Hhist. by apply history_not_grown in Hhist.
  - rewrite Hgrown in Hhist. cbn in Hhist.
    apply app_inj_tail in Hhist as [_ <-]. cbn.
    by exists b, bs, s, ss, bu, su.
Qed.

(** X18. For a trade between two different accounts: the buyer pays the traded
    quantity at the bid's price and receives the stock, the seller is paid at
    the ask's price and gives the stock, the difference is added to the
    overhead, and no other balance changes.  (When the two orders belong to
    one account, the second entry of the ledger patch replaces the first.) *)
Theorem trade_between_two_accounts m now entry :
  history (after (processOrder now m)) = history m ++ [entry] →
  buyer entry ≠ seller entry →
  ∃ bid ask buyingUser sellingUser buyingUser' sellingUser',
    outcome (getBestBuyOrder m) = Returned bid ∧
    outcome (getBestSellOrder m) = Returned ask ∧
    buyer entry = account bid ∧ buyPrice entry = price bid ∧
    seller entry = account ask ∧ sellPrice entry = price ask ∧
    users m !! buyer entry = Some buyingUser ∧
    users m !! seller entry = Some sellingUser ∧
    users (after (processOrder now m)) !! buyer entry = Some buyingUser' ∧
    users (after (processOrder now m)) !! seller entry = Some sellingUser' ∧
    money buyingUser' = money buyingUser - tradeQuantity entry * price bid ∧
    money sellingUser' = money sellingUser + tradeQuantity entry * price ask ∧
    overheadMade (after (processOrder now m)) =
      overheadMade m + (tradeQuantity entry * price bid -
                        tradeQuantity entry * price ask) ∧
    stock buyingUser' = stock buyingUser + tradeQuantity entry ∧
    stock sellingUser' = stock sellingUser - tradeQuantity entry ∧
    ∀ acct, acct ≠ buyer entry → acct ≠ seller entry →
            users (after (processOrder now m)) !! acct = users m !! acct.
Proof.
  intros Hhist Hne.
  destruct (processOrder_traded _ _ _ Hhist)
    as (b & bs & s & ss & bu & su & Hb & Hs & Hbu & Hsu & He & Hrun).
  rewrite Hrun, getBestBuyOrder_run, getBestSellOrder_run, Hb, Hs.
  match goal with
  | |- context [after (finishTrade now b s ?q ?m2)] =>
      destruct (finishTrade_frame now b s q m2) as [-> ->]
  end.
  rewrite He in Hne |- *. cbn in Hne |- *.
  eexists b, s, bu, su, _, _. repeat split; try done.
  - rewrite lookup_insert_ne by congruence. apply lookup_insert_eq.
  - apply lookup_insert_eq.
  - cbn. lia.
  - cbn. lia.
  - lia.
  - done.
  - done.
  - intros acct Hb' Hs'. by rewrite !lookup_insert_ne by congruence.
Qed.

(** C6. In a reachable state, when [processOrder] trades less than the best
    bid's quantity, the bid book afterwards is the rest of the book followed
    by a remainder order: same account, price, side and arrival time as the
    best bid, its quantity reduced by the traded quantity; the best bid
    itself is gone.  The same holds for the best ask and the ask book. *)
Theorem partial_fill_remainder m now bid ask entry :
  reachable m →
  outcome (getBestBuyOrder m) = Returned bid →
  outcome (getBestSellOrder m) = Returned ask →
  history (after (processOrder now m)) = history m ++ [entry] →
  (tradeQuantity entry < quantity bid →
   ∃ rest,
     buyOrders (after (processOrder now m)) =
       tail (sortBuys (buyOrders m)) ++ [rest] ∧
     bid :: buyOrders (after (processOrder now m)) ≡ₚ buyOrders m ++ [rest] ∧
     account rest = account bid ∧ price rest = price bid ∧
     action rest = BUY ∧ time rest = time bid ∧
     quantity rest = quantity bid - tradeQuantity entry) ∧
  (tradeQuantity entry < quantity ask →
   ∃ rest,
     sellOrders (after (processOrder now m)) =
       tail (sortSells (sellOrders m)) ++ [rest] ∧
     ask :: sellOrders (after (processOrder now m)) ≡ₚ sellOrders m ++ [rest] ∧
     account rest = account ask ∧ price rest = price ask ∧
     action rest = SELL ∧ time rest = time ask ∧
     quantity rest = quantity ask - tradeQuantity entry).
Proof.
  intros Hreach Hbid Hask Hhist.
  destruct (processOrder_traded _ _ _ Hhist)
    as (b & bs & s & ss & bu & su & Hb & Hs & Hbu & Hsu & He & Hrun).
  rewrite getBestBuyOrder_run, Hb in Hbid. injection Hbid as ->.
  rewrite getBestSellOrder_run, Hs in Hask. injection Hask as ->.
  destruct (sorted_books _ _ _ (reachable_sidesAgree _ Hreach)) as [Hsb Hss].
  rewrite Hb in Hsb. rewrite Hs in Hss.
  apply Forall_cons in Hsb as [Hbuy _]. apply Forall_cons in Hss as [Hsell _].
  rewrite Hrun, finishTrade_run, Hb, Hs by done. cbn -[remainder].
  pose proof (sortBuys_perm (buyOrders m)) as Hpb. rewrite Hb in Hpb.
  pose proof (sortSells_perm (sellOrders m)) as Hps. rewrite Hs in Hps.
  unfold remainder. split; intros Hlt.
  - apply Z.ltb_lt in Hlt as ->. eexists. split; [done|].
    split; [by rewrite app_comm_cons, Hpb|]. by cbn.
  - apply Z.ltb_lt in Hlt as ->. eexists. split; [done|].
    split; [by rewrite app_comm_cons, Hps|]. by cbn.
Qed.

(** The trade path in one equation: an overlap, a seller with stock, a buyer
    who can pay for one unit at least, and books whose orders are on the
    right side. *)
Lemma processOrder_trade_run m now b bs s ss bu su sd0 sd :
  sortBuys (buyOrders m) = b :: bs →
  sortSells (sellOrders m) = s :: ss →
  action b = BUY → action s = SELL →
  price s < price b →
  users m !! account s = Some su →
  users m !! account b = Some bu →
  (if stock su <? quantity s then stock su
   else Z.min (quantity b) (quantity s)) = sd0 →
  sd0 ≠ 0 →
  price b ≤ money bu →
  price b ≠ 0 →
  (if money bu <? price b * sd0 then money bu / price b else sd0) = sd →
  processOrder now m =
  (Returned tt,
   {| buyOrders := bs ++ remainder sd b;
      sellOrders := ss ++ remainder sd s;
      overheadMade := overheadMade m + (price b * sd - sd * price s);
      users :=
        <[account s := {| money := money su + sd * price s;
                          stock := stock su - sd |}]>
          (<[account b := {| money := money bu - price b * sd;
                             stock := stock bu + sd |}]>
             (users m));
      history := history m ++ [tradeEntry now b s sd] |}).
Proof.
  intros Hb Hs Hbuy Hsell Hlt Hsu Hbu Hsd0 Hnz Hpay Hpb Hsd.
  rewrite processOrder_run, Hb, Hs. cbv zeta.
  apply Z.ltb_lt in Hlt as ->. rewrite Hsu, Hsd0.
  apply Z.eqb_neq in Hnz as ->. rewrite Hbu.
  apply Z.ltb_ge in Hpay as ->. apply Z.eqb_neq in Hpb as ->.
  rewrite andb_false_r, Hsd. by rewrite finishTrade_run.
Qed.

(** ** The scenarios of [matcher.spec.js] *)

(** C5. Accounts [A] with 15000 money and 71 stock and [B] with 19000 and
    17; [A] bids 1500 for 5, [B] asks 1000 for 5.  One [processOrder] leaves
    [A] with 7500 and 76, [B] with 24000 and 12, an overhead of 2500, and one
    history entry: buyer [A], seller [B], prices 1500 and 1000, quantity 5. *)
Theorem scenario_full_fill (A B : string) (t1 t2 now : Z) :
  A ≠ B →
  let m := after (addOrder (newOrder B 1000 5 SELL) t2
             (after (addOrder (newOrder A 1500 5 BUY) t1
                (twoAccounts A 15000 71 B 19000 17)))) in
  let m' := after (processOrder now m) in
  outcome (processOrder now m) = Returned tt ∧
  users m' !! A = Some {| money := 7500; stock := 76 |} ∧
  users m' !! B = Some {| money := 24000; stock := 12 |} ∧
  outcome (getOverheadMade m') = Returned 2500 ∧
  outcome (getHistory m') =
    Returned [{| buyer := A; seller := B; buyPrice := 1500; sellPrice := 1000;
                 tradeQuantity := 5; tradeTime := now |}].
Proof.
  intros Hne m m'. subst m'.
  assert (users m = <[B := {| money := 19000; stock := 17 |}]>
                      (<[A := {| money := 15000; stock := 71 |}]> ∅))
    as Husers by reflexivity.
  rewrite (processOrder_trade_run m now
             (setTime t1 (newOrder A 1500 5 BUY)) []
             (setTime t2 (newOrder B 1000 5 SELL)) []
             {| money := 15000; stock := 71 |}
             {| money := 19000; stock := 17 |} 5 5); try done.
  - unfold outcome, after, getOverheadMade, getHistory, bind, this, ret.
    cbn [fst snd users overheadMade history]. rewrite Husers.
    change (account (setTime t1 (newOrder A 1500 5 BUY))) with A.
    change (account (setTime t2 (newOrder B 1000 5 SELL))) with B.
    repeat split.
    + rewrite lookup_insert_ne by done. by rewrite lookup_insert_eq.
    + by rewrite lookup_insert_eq.
  - rewrite Husers. apply lookup_insert_eq.
  - rewrite Husers. rewrite lookup_insert_ne by done. apply lookup_insert_eq.
Qed.

(** ** The example states *)

Lemma booked_Forall (P : Order → Prop) m :
  Forall P (buyOrders m) → Forall P (sellOrders m) → ∀ o, booked m o → P o.
Proof.
  rewrite !Forall_forall. intros Hb Hs o [Ho|Ho]; [by apply Hb|by apply Hs].
Qed.

Lemma withOrders_users bid ask m : users (withOrders bid ask m) = users m.
Proof.
  unfold withOrders, addOrder.
  destruct (addOrderPreservingTimestamp_frame (setTime 2 ask)
              (after (addOrderPreservingTimestamp (setTime 1 bid) m)))
    as [-> _].
  by destruct (addOrderPreservingTimestamp_frame (setTime 1 bid) m) as [-> _].
Qed.

Lemma twoAccounts_balances a am astock b bm bstock bid ask :
  0 ≤ am → 0 ≤ astock → 0 ≤ bm → 0 ≤ bstock →
  balancesNonNegative
    (withOrders bid ask (twoAccounts a am astock b bm bstock)).
Proof.
  intros ? ? ? ?. unfold balancesNonNegative. rewrite withOrders_users.
  change (users (twoAccounts a am astock b bm bstock))
    with (<[b := {| money := bm; stock := bstock |}]>
            (<[a := {| money := am; stock := astock |}]>
               (∅ : gmap string Balance))).
  apply (map_Forall_insert_2 (λ _ bal, 0 ≤ money bal ∧ 0 ≤ stock bal));
    [done|].
  apply (map_Forall_insert_2 (λ _ bal, 0 ≤ money bal ∧ 0 ≤ stock bal));
    [done|].
  apply map_Forall_empty.
Qed.

Lemma withOrders_reachable (P : Order → Prop) bid ask a am astock b bm bstock :
  P bid → P ask →
  reachableWith P (withOrders bid ask (twoAccounts a am astock b bm bstock)).
Proof.
  intros Hbid Hask. unfold withOrders, twoAccounts.
  by repeat (constructor; try done).
Qed.

(** The overlap test of a failed [processOrder] sorts the bids of
    [noOverlap] in place: the better bid, submitted last, is first
    afterwards. *)
Remark failed_processOrder_sorts_the_book :
  outcome (processOrder 4 noOverlap) = Threw NoOverlapError ∧
  buyOrders noOverlap =
    [setTime 1 (newOrder alice 1300 10 BUY);
     setTime 3 (newOrder alice 1350 10 BUY)] ∧
  buyOrders (after (processOrder 4 noOverlap)) =
    [setTime 3 (newOrder alice 1350 10 BUY);
     setTime 1 (newOrder alice 1300 10 BUY)].
Proof. by vm_compute. Qed.

(** The expectations of [matcher.spec.js], on the embedding. *)
Example spec_prefers_older_sell_orders :
  outcome (getBestSellOrder
             (after (addOrder (newOrder bob 1300 10 SELL) 2
                (after (addOrder (newOrder alice 1300 10 SELL) 1 newMatcher)))))
    = Returned (setTime 1 (newOrder alice 1300 10 SELL)) ∧
  outcome (getBestNSellOrders 2 tiedAsks) =
    Returned [setTime 3 (newOrder alice 1250 10 SELL);
              setTime 1 (newOrder alice 1300 10 SELL)].
Proof. by vm_compute. Qed.

Example spec_processes_partial_orders :
  let m := after (processOrder 3 partialFill) in
  users m !! alice = Some {| money := 7500; stock := 76 |} ∧
  users m !! bob = Some {| money := 24000; stock := 12 |} ∧
  overheadMade m = 2500 ∧
  outcome (getBestBuyOrder m) =
    Returned (setQuantity 1 (setTime 1 (newOrder alice 1500 6 BUY))) ∧
  let m2 := after (processOrder 5
              (after (addOrder (newOrder bob 500 1 SELL) 4 m))) in
  overheadMade m2 = 3500 ∧
  outcome (getBestBuyOrder m2) = Threw NoBuyOrdersError ∧
  users m2 !! alice = Some {| money := 6000; stock := 77 |} ∧
  users m2 !! bob = Some {| money := 24500; stock := 11 |}.
Proof. by vm_compute. Qed.

Example spec_refuses_to_pay_more_than_they_have :
  let m := after (processOrder 3 budgetCapped) in
  users m !! alice = Some {| money := 5000; stock := 72 |} ∧
  users m !! bob = Some {| money := 20000; stock := 16 |} ∧
  overheadMade m = 9000.
Proof. by vm_compute. Qed.

Example spec_removes_buy_orders_without_money :
  outcome (getBestBuyOrder buyerWithoutMoney) =
    Returned (setTime 3 (newOrder charlie 2000 1 BUY)) ∧
  let m := after (processOrder 4 buyerWithoutMoney) in
  users m = users buyerWithoutMoney ∧ overheadMade m = 0 ∧ history m = [] ∧
  outcome (getBestBuyOrder m) =
    Returned (setTime 1 (newOrder alice 1500 5 BUY)) ∧
  let m2 := after (processOrder 5 m) in
  users m2 !! alice = Some {| money := 7500; stock := 76 |} ∧
  users m2 !! bob = Some {| money := 24000; stock := 12 |} ∧
  users m2 !! charlie = Some {| money := 120; stock := 4 |} ∧
  overheadMade m2 = 2500.
Proof. by vm_compute. Qed.

(** C2, at a trade of an account with itself.  [alice] bids 1500 for 5 and
    asks 1000 for 5.  [processOrder] records the trade of 5 and an overhead
    of 2500, and writes the seller's balance over the buyer's: her money
    goes from 15000 up to 20000, where the buyer was to pay 7500, and her
    stock from 71 down to 66, where the buyer was to receive 5. *)
Theorem self_trade_ledger :
  users selfTrade !! alice = Some {| money := 15000; stock := 71 |} ∧
  outcome (processOrder 3 selfTrade) = Returned tt ∧
  history (after (processOrder 3 selfTrade)) =
    [{| buyer := alice; seller := alice; buyPrice := 1500; sellPrice := 1000;
        tradeQuantity := 5; tradeTime := 3 |}] ∧
  overheadMade (after (processOrder 3 selfTrade)) = 2500 ∧
  users (after (processOrder 3 selfTrade)) !! alice =
    Some {| money := 20000; stock := 66 |}.
Proof. by vm_compute. Qed.

(** C1 fails on a bid for a negative quantity.  All balances and prices of
    [negativeBid] are non-negative; [processOrder] trades -5 units and
    leaves [alice] with a stock of -5. *)
Lemma negative_bid_makes_stock_negative :
  balancesNonNegative negativeBid ∧
  (∀ o, booked negativeBid o → 0 ≤ price o) ∧
  ¬ balancesNonNegative (after (processOrder 3 negativeBid)).
Proof.
  split; [by apply twoAccounts_balances|]. split.
  - apply booked_Forall; by repeat constructor.
  - intros H.
    destruct (H alice {| money := 22500; stock := -5 |}) as [_ Hstock];
      [by vm_compute|]. cbn in Hstock. lia.
Qed.

(** C9 fails on the same bid: [addOrder] books an order of quantity -5. *)
Lemma negative_quantity_is_booked :
  reachable negativeBid ∧
  ∃ o, booked negativeBid o ∧ quantity o ≤ 0.
Proof.
  split; [by apply withOrders_reachable|].
  exists (setTime 1 (newOrder alice 1500 (-5) BUY)). split; [|by cbn].
  left. apply list_elem_of_singleton. reflexivity.
Qed.

(** ** The theorems at the example states *)

Lemma processOrder_keeps_balances_non_negative_witness :
  balancesNonNegative budgetCapped ∧
  (∀ o, booked budgetCapped o → 0 ≤ price o) ∧
  (∀ o, booked budgetCapped o → 0 ≤ quantity o) ∧
  balancesNonNegative (after (processOrder 3 budgetCapped)).
Proof.
  assert (balancesNonNegative budgetCapped) as Hbal
    by (by apply twoAccounts_balances).
  assert (∀ o, booked budgetCapped o → 0 ≤ price o) as Hprice
    by (apply booked_Forall; by repeat constructor).
  assert (∀ o, booked budgetCapped o → 0 ≤ quantity o) as Hqty
    by (apply booked_Forall; by repeat constructor).
  exact (conj Hbal (conj Hprice (conj Hqty
           (processOrder_keeps_balances_non_negative budgetCapped 3
              Hbal Hprice Hqty)))).
Defined.

Lemma getBestOrder_price_time_priority_witness :
  buyOrders noOverlap ≠ [] ∧ sellOrders noOverlap ≠ [] ∧
  (∃ o, outcome (getBestBuyOrder noOverlap) = Returned o ∧
        bestBid (buyOrders noOverlap) o) ∧
  (∃ o, outcome (getBestSellOrder noOverlap) = Returned o ∧
        bestAsk (sellOrders noOverlap) o).
Proof.
  assert (buyOrders noOverlap ≠ []) as Hb by done.
  assert (sellOrders noOverlap ≠ []) as Hs by done.
  destruct (getBestOrder_price_time_priority noOverlap) as [Hbid Hask].
  exact (conj Hb (conj Hs (conj (Hbid Hb) (Hask Hs)))).
Defined.

Lemma scenario_full_fill_witness :
  alice ≠ bob ∧
  outcome (processOrder 3 fullFill) = Returned tt ∧
  users (after (processOrder 3 fullFill)) !! alice =
    Some {| money := 7500; stock := 76 |} ∧
  users (after (processOrder 3 fullFill)) !! bob =
    Some {| money := 24000; stock := 12 |} ∧
  outcome (getOverheadMade (after (processOrder 3 fullFill))) = Returned 2500 ∧
  outcome (getHistory (after (processOrder 3 fullFill))) =
    Returned [{| buyer := alice; seller := bob; buyPrice := 1500;
                 sellPrice := 1000; tradeQuantity := 5; tradeTime := 3 |}].
Proof.
  assert (alice ≠ bob) as Hne by done.
  exact (conj Hne (scenario_full_fill alice bob 1 2 3 Hne)).
Defined.

Lemma partial_fill_remainder_witness :
  reachable partialFill ∧
  ∃ rest,
    buyOrders (after (processOrder 3 partialFill)) =
      tail (sortBuys (buyOrders partialFill)) ++ [rest] ∧
    setTime 1 (newOrder alice 1500 6 BUY)
      :: buyOrders (after (processOrder 3 partialFill))
      ≡ₚ buyOrders partialFill ++ [rest] ∧
    account rest = alice ∧ price rest = 1500 ∧ action rest = BUY ∧
    time rest = 1 ∧ quantity rest = 6 - 5.
Proof.
  assert (reachable partialFill) as Hreach
    by (by apply withOrders_reachable).
  split; [done|].
  refine (proj1 (partial_fill_remainder partialFill 3
                   (setTime 1 (newOrder alice 1500 6 BUY))
                   (setTime 2 (newOrder bob 1000 5 SELL))
                   {| buyer := alice; seller := bob; buyPrice := 1500;
                      sellPrice := 1000; tradeQuantity := 5; tradeTime := 3 |}
                   Hreach _ _ _) _).
  - by vm_compute.
  - by vm_compute.
  - by vm_compute.
  - cbn. lia.
Defined.

Lemma failures_leave_state_witness :
  outcome (hasFoundOverlap noOverlap) = Returned false ∧
  outcome (addOrder (newOrder bob 1300 0 SELL) 4 noOverlap) =
    Threw ZeroQuantityError ∧
  (outcome (processOrder 4 noOverlap) = Threw NoOverlapError ∧
   buyOrders (after (processOrder 4 noOverlap)) ≡ₚ buyOrders noOverlap ∧
   sellOrders (after (processOrder 4 noOverlap)) ≡ₚ sellOrders noOverlap ∧
   users (after (processOrder 4 noOverlap)) = users noOverlap ∧
   overheadMade (after (processOrder 4 noOverlap)) = overheadMade noOverlap ∧
   history (after (processOrder 4 noOverlap)) = history noOverlap ∧
   (sortBuys (buyOrders noOverlap) = buyOrders noOverlap →
    sortSells (sellOrders noOverlap) = sellOrders noOverlap →
    after (processOrder 4 noOverlap) = noOverlap)) ∧
  after (addOrder (newOrder bob 1300 0 SELL) 4 noOverlap) = noOverlap.
Proof.
  assert (outcome (hasFoundOverlap noOverlap) = Returned false) as Hno
    by (by vm_compute).
  assert (outcome (addOrder (newOrder bob 1300 0 SELL) 4 noOverlap) =
            Threw ZeroQuantityError) as Hzero by reflexivity.
  destruct (failures_leave_state noOverlap 4 (newOrder bob 1300 0 SELL))
    as [Hprocess Hadd].
  exact (conj Hno (conj Hzero (conj (Hprocess Hno) (Hadd _ Hzero)))).
Defined.

Lemma processOrder_evicts_unfulfillable_ask_witness :
  outcome (hasFoundOverlap sellerWithoutStock) = Returned true ∧
  users sellerWithoutStock !! charlie = Some {| money := 43000; stock := 0 |} ∧
  outcome (processOrder 3 sellerWithoutStock) = Returned tt ∧
  sellOrders (after (processOrder 3 sellerWithoutStock)) = [] ∧
  users (after (processOrder 3 sellerWithoutStock)) = users sellerWithoutStock ∧
  overheadMade (after (processOrder 3 sellerWithoutStock)) = 0 ∧
  history (after (processOrder 3 sellerWithoutStock)) = [].
Proof.
  assert (outcome (hasFoundOverlap sellerWithoutStock) = Returned true)
    as Hov by (by vm_compute).
  assert (users sellerWithoutStock !! charlie =
            Some {| money := 43000; stock := 0 |}) as Hseller
    by (by vm_compute).
  destruct (processOrder_evicts_unfulfillable_ask sellerWithoutStock 3
              (setTime 1 (newOrder alice 1500 5 BUY))
              (setTime 2 (newOrder charlie 100 1 SELL))
              {| money := 43000; stock := 0 |} Hov)
    as (Hret & Hsell & _ & _ & _ & Husers & Hover & Hhist);
    [by vm_compute|by vm_compute|exact Hseller|reflexivity|].
  exact (conj Hov (conj Hseller (conj Hret (conj Hsell
           (conj Husers (conj Hover Hhist)))))).
Defined.

Lemma booked_quantities_positive_witness :
  reachableWith (λ o, 0 ≤ quantity o) (after (processOrder 3 partialFill)) ∧
  ∀ o, booked (after (processOrder 3 partialFill)) o → 0 < quantity o.
Proof.
  assert (reachableWith (λ o, 0 ≤ quantity o)
            (after (processOrder 3 partialFill))) as Hreach.
  { constructor. apply withOrders_reachable; cbn; lia. }
  exact (conj Hreach (booked_quantities_positive _ Hreach)).
Defined.

Lemma budget_cap_division_defined_witness :
  (∀ o, booked budgetCapped o → 0 ≤ price o) ∧
  outcome (processOrder 3 budgetCapped) ≠ Threw NotAnInteger ∧
  (outcome (hasFoundOverlap budgetCapped) = Returned true →
   ∃ bid ask, outcome (getBestBuyOrder budgetCapped) = Returned bid ∧
              outcome (getBestSellOrder budgetCapped) = Returned ask ∧
              0 ≤ price ask ∧ price ask < price bid ∧ 1 ≤ price bid).
Proof.
  assert (∀ o, booked budgetCapped o → 0 ≤ price o) as Hprice
    by (apply booked_Forall; by repeat constructor).
  destruct (budget_cap_division_defined budgetCapped 3 Hprice)
    as (Hdefined & _ & Hdivisor).
  exact (conj Hprice (conj Hdefined Hdivisor)).
Defined.

(** * Further properties of the methods *)

(** ** Admission and the queries *)

(** X1. [addOrder] throws exactly when the quantity is 0 (whatever the
    action) or, for another quantity, when the action is neither ["BUY"] nor
    ["SELL"]; then nothing changes.  Otherwise it returns, and the book of the
    order's side ends with the order stamped with the clock reading, whatever
    time the order carried; the other book is as it was.  In all cases the
    ledger, the overhead and the history are untouched. *)
Theorem addOrder_admission order now m :
  users (after (addOrder order now m)) = users m ∧
  overheadMade (after (addOrder order now m)) = overheadMade m ∧
  history (after (addOrder order now m)) = history m ∧
  match outcome (addOrder order now m) with
  | Returned _ =>
      quantity order ≠ 0 ∧
      ((action order = BUY ∧
        buyOrders (after (addOrder order now m)) =
          buyOrders m ++ [setTime now order] ∧
        sellOrders (after (addOrder order now m)) = sellOrders m) ∨
       (action order = SELL ∧
        sellOrders (after (addOrder order now m)) =
          sellOrders m ++ [setTime now order] ∧
        buyOrders (after (addOrder order now m)) = buyOrders m))
  | Threw e =>
      after (addOrder order now m) = m ∧
      ((quantity order = 0 ∧ e = ZeroQuantityError) ∨
       (quantity order ≠ 0 ∧ action order ≠ BUY ∧ action order ≠ SELL ∧
        e = UnexpectedActionError))
  end.
Proof.
  unfold addOrder. cbv zeta. rewrite addOrderPreservingTimestamp_run.
  cbn [quantity action setTime].
  destruct (Z.eqb_spec (quantity order) 0) as [Hz|Hnz].
  { repeat split; try done. by left. }
  destruct (String.eqb_spec (action order) BUY) as [Hbuy|Hnbuy].
  { repeat split; try done. by left. }
  destruct (String.eqb_spec (action order) SELL) as [Hsell|Hnsell].
  { repeat split; try done. by right. }
  repeat split; try done. by right.
Qed.

(** X2. [getOrdersByAccount] never throws and changes nothing.  It returns
    exactly the booked orders of the account: an order is in the result if
    and only if it is in a book and belongs to the account, and the result
    keeps the order of the arrays, bids before asks. *)
Theorem getOrdersByAccount_exact acct m :
  ∃ l, getOrdersByAccount acct m = (Returned l, m) ∧
       (∀ o, o ∈ l ↔ booked m o ∧ account o = acct) ∧
       l `sublist_of` buyOrders m ++ sellOrders m.
Proof.
  eexists. split; [reflexivity|]. split.
  - intros o. rewrite elem_of_app, !list_elem_of_filter. unfold booked. tauto.
  - apply sublist_app; apply sublist_filter.
Qed.

(** X3. A best-order query that is repeated returns the same result and
    leaves the matcher as the first query left it; the same holds for the
    overlap test. *)
Theorem best_order_queries_idempotent m :
  getBestBuyOrder (after (getBestBuyOrder m)) = getBestBuyOrder m ∧
  getBestSellOrder (after (getBestSellOrder m)) = getBestSellOrder m ∧
  hasFoundOverlap (after (hasFoundOverlap m)) = hasFoundOverlap m.
Proof.
  split; [|split].
  - rewrite !getBestBuyOrder_run. cbn [after snd buyOrders setBuyOrders].
    by rewrite sortBuys_idem.
  - rewrite !getBestSellOrder_run. cbn [after snd sellOrders setSellOrders].
    by rewrite sortSells_idem.
  - rewrite (hasFoundOverlap_run m).
    destruct (sortBuys (buyOrders m)) as [|b bs] eqn:Hb; [done|].
    assert (sortBuys (b :: bs) = b :: bs) as Hb'
      by (rewrite <- Hb; apply sortBuys_idem).
    cbv zeta.
    destruct (sortSells (sellOrders m)) as [|s ss] eqn:Hs.
    + rewrite hasFoundOverlap_run.
      cbn [after snd buyOrders sellOrders setBuyOrders setSellOrders].
      by rewrite Hb'.
    + assert (sortSells (s :: ss) = s :: ss) as Hs'
        by (rewrite <- Hs; apply sortSells_idem).
      rewrite hasFoundOverlap_run.
      cbn [after snd buyOrders sellOrders setBuyOrders setSellOrders].
      by rewrite Hb', Hs'.
Qed.

(** X4. [addUser] returns the identifier it drew; [getUsers] then shows the
    given money and stock under it and every other account as before (an
    identifier that was in use is overwritten).  The books, the overhead and
    the history are untouched. *)
Theorem addUser_then_getUsers userid money0 stock0 m :
  outcome (addUser userid money0 stock0 m) = Returned userid ∧
  ∃ ledger,
    outcome (getUsers (after (addUser userid money0 stock0 m))) =
      Returned ledger ∧
    ledger !! userid = Some {| money := money0; stock := stock0 |} ∧
    (∀ acct, acct ≠ userid → ledger !! acct = users m !! acct) ∧
    buyOrders (after (addUser userid money0 stock0 m)) = buyOrders m ∧
    sellOrders (after (addUser userid money0 stock0 m)) = sellOrders m ∧
    overheadMade (after (addUser userid money0 stock0 m)) = overheadMade m ∧
    history (after (addUser userid money0 stock0 m)) = history m.
Proof.
  split; [done|]. eexists. split; [reflexivity|].
  cbn [after snd addUser bind assign ret users setUsers].
  split; [apply lookup_insert_eq|].
  split; [|done]. intros acct Hne. by apply lookup_insert_ne.
Qed.

(** X5. An admitted bid whose price is above the price of every booked bid
    is the best bid afterwards, and an admitted ask whose price is below the
    price of every booked ask is the best ask afterwards. *)
Theorem better_price_becomes_best order now m :
  quantity order ≠ 0 →
  (action order = BUY →
   (∀ o, o ∈ buyOrders m → price o < price order) →
   outcome (getBestBuyOrder (after (addOrder order now m))) =
     Returned (setTime now order)) ∧
  (action order = SELL →
   (∀ o, o ∈ sellOrders m → price order < price o) →
   outcome (getBestSellOrder (after (addOrder order now m))) =
     Returned (setTime now order)).
Proof.
  intros Hnz.
  unfold addOrder. cbv zeta. rewrite addOrderPreservingTimestamp_run.
  cbn [quantity action setTime].
  apply Z.eqb_neq in Hnz as ->. split; intros Hside Hbest; rewrite Hside.
  - cbn [String.eqb Ascii.eqb Bool.eqb BUY].
    rewrite getBestBuyOrder_run. cbn [after snd buyOrders setBuyOrders outcome fst].
    destruct (sortBuys (buyOrders m ++ [setTime now order])) as [|o rest] eqn:Heq.
    { apply sortBuys_nil in Heq. by destruct (buyOrders m). }
    apply sortBuys_head in Heq as [Hin Hall]. f_equal.
    apply elem_of_app in Hin as [Hin|Hin]; [|by apply list_elem_of_singleton in Hin].
    specialize (Hall (setTime now order)). rewrite elem_of_app in Hall.
    specialize (Hbest _ Hin). cbn in Hall.
    destruct Hall as [?|[? _]]; [right; by apply list_elem_of_singleton|lia|lia].
  - cbn [String.eqb Ascii.eqb Bool.eqb BUY SELL].
    rewrite getBestSellOrder_run. cbn [after snd sellOrders setSellOrders outcome fst].
    destruct (sortSells (sellOrders m ++ [setTime now order])) as [|o rest] eqn:Heq.
    { apply sortSells_nil in Heq. by destruct (sellOrders m). }
    apply sortSells_head in Heq as [Hin Hall]. f_equal.
    apply elem_of_app in Hin as [Hin|Hin]; [|by apply list_elem_of_singleton in Hin].
    specialize (Hall (setTime now order)). rewrite elem_of_app in Hall.
    specialize (Hbest _ Hin). cbn in Hall.
    destruct Hall as [?|[? _]]; [right; by apply list_elem_of_singleton|lia|lia].
Qed.

(** ** The best [n] orders *)

Lemma getBestNBuyOrders_run n m :
  getBestNBuyOrders n m =
  (Returned (slice0 n (sortBuys (buyOrders m))),
   setBuyOrders (sortBuys (buyOrders m)) m).
Proof.
  unfold getBestNBuyOrders, tryCatch. rewrite bind_run, getBestBuyOrder_run.
  destruct (sortBuys (buyOrders m)); [|done].
  unfold slice0, ret. destruct (n <? 0); by rewrite take_nil.
Qed.

Lemma getBestNSellOrders_run n m :
  getBestNSellOrders n m =
  (Returned (slice0 n (sortSells (sellOrders m))),
   setSellOrders (sortSells (sellOrders m)) m).
Proof.
  unfold getBestNSellOrders, tryCatch. rewrite bind_run, getBestSellOrder_run.
  destruct (sortSells (sellOrders m)); [|done].
  unfold slice0, ret. destruct (n <? 0); by rewrite take_nil.
Qed.

Lemma StronglySorted_weaken {A} (R R' : A → A → Prop) l :
  (∀ x y, R x y → R' x y) → StronglySorted R l → StronglySorted R' l.
Proof.
  intros HR. induction 1 as [|x l _ IH Hx]; constructor; [done|].
  eapply Forall_impl; [exact Hx|]. auto.
Qed.

Lemma sortBuys_sorted l : StronglySorted bidPriority (sortBuys l).
Proof.
  eapply StronglySorted_weaken;
    [|apply (sortBy_sorted buyCompare buyCompare_total buyCompare_trans)].
  intros x y Hxy. apply buyCompare_le in Hxy. unfold bidPriority. lia.
Qed.

Lemma sortSells_sorted l : StronglySorted askPriority (sortSells l).
Proof.
  eapply StronglySorted_weaken;
    [|apply (sortBy_sorted sellCompare sellCompare_total sellCompare_trans)].
  intros x y Hxy. apply sellCompare_le in Hxy. unfold askPriority. lia.
Qed.

(** The first [k] elements of an array sorted by [R] are sorted, and each of
    them is related to every element left out. *)
Lemma sorted_take_drop {A} (R : A → A → Prop) (sorted : list A) k :
  StronglySorted R sorted →
  StronglySorted R (take k sorted) ∧
  ∀ x y, x ∈ take k sorted → y ∈ drop k sorted → R x y.
Proof.
  intros Hs. rewrite <- (take_drop k sorted) in Hs. split.
  - by eapply StronglySorted_app_1_l.
  - intros x y. by eapply StronglySorted_app_1_elem_of.
Qed.

(** X6. For [n ≥ 0], [getBestNBuyOrders n] never throws and returns the
    [n] best bids, or all of them if there are fewer (none on an empty book):
    the result and the bids left out make up the book, the result is in
    priority order, and each order of the result has priority over each bid
    left out.  [getBestNSellOrders] does the same for the asks. *)
Theorem getBestNOrders_are_the_best n m :
  0 ≤ n →
  (∃ l others,
     outcome (getBestNBuyOrders n m) = Returned l ∧
     Z.of_nat (length l) = Z.min n (Z.of_nat (length (buyOrders m))) ∧
     l ++ others ≡ₚ buyOrders m ∧
     StronglySorted bidPriority l ∧
     ∀ o o', o ∈ l → o' ∈ others → bidPriority o o') ∧
  (∃ l others,
     outcome (getBestNSellOrders n m) = Returned l ∧
     Z.of_nat (length l) = Z.min n (Z.of_nat (length (sellOrders m))) ∧
     l ++ others ≡ₚ sellOrders m ∧
     StronglySorted askPriority l ∧
     ∀ o o', o ∈ l → o' ∈ others → askPriority o o').
Proof.
  intros Hn. apply Z.ltb_ge in Hn as Hnb. split.
  - rewrite getBestNBuyOrders_run. unfold slice0. rewrite Hnb.
    exists (take (Z.to_nat n) (sortBuys (buyOrders m))),
           (drop (Z.to_nat n) (sortBuys (buyOrders m))).
    destruct (sorted_take_drop bidPriority _ (Z.to_nat n)
                (sortBuys_sorted (buyOrders m))) as [Hsorted Hrest].
    repeat split; try done.
    + rewrite length_take, (Permutation_length (sortBuys_perm (buyOrders m))).
      lia.
    + by rewrite take_drop, sortBuys_perm.
  - rewrite getBestNSellOrders_run. unfold slice0. rewrite Hnb.
    exists (take (Z.to_nat n) (sortSells (sellOrders m))),
           (drop (Z.to_nat n) (sortSells (sellOrders m))).
    destruct (sorted_take_drop askPriority _ (Z.to_nat n)
                (sortSells_sorted (sellOrders m))) as [Hsorted Hrest].
    repeat split; try done.
    + rewrite length_take, (Permutation_length (sortSells_perm (sellOrders m))).
      lia.
    + by rewrite take_drop, sortSells_perm.
Qed.

(** ** More paths of [processOrder] *)

(** X7. With an overlap and a seller who can deliver, when the buyer's
    money is below the price of the best bid, [processOrder] returns normally
    having removed the best bid from the bid book; it records no trade and no
    overhead, changes no balance, and the ask book keeps its orders, in
    priority order. *)
Theorem processOrder_evicts_unaffordable_bid m now bid ask sellingUser buyingUser :
  outcome (hasFoundOverlap m) = Returned true →
  outcome (getBestBuyOrder m) = Returned bid →
  outcome (getBestSellOrder m) = Returned ask →
  users m !! account ask = Some sellingUser →
  stockCapped sellingUser bid ask ≠ 0 →
  users m !! account bid = Some buyingUser →
  money buyingUser < price bid →
  outcome (processOrder now m) = Returned tt ∧
  buyOrders (after (processOrder now m)) = tail (sortBuys (buyOrders m)) ∧
  bid :: buyOrders (after (processOrder now m)) ≡ₚ buyOrders m ∧
  sellOrders (after (processOrder now m)) = sortSells (sellOrders m) ∧
  sellOrders (after (processOrder now m)) ≡ₚ sellOrders m ∧
  users (after (processOrder now m)) = users m ∧
  overheadMade (after (processOrder now m)) = overheadMade m ∧
  history (after (processOrder now m)) = history m.
Proof.
  rewrite hasFoundOverlap_run, getBestBuyOrder_run, getBestSellOrder_run,
    processOrder_run. unfold stockCapped.
  pose proof (sortBuys_perm (buyOrders m)) as Hpb.
  pose proof (sortSells_perm (sellOrders m)) as Hps.
  destruct (sortBuys (buyOrders m)) as [|b bs]; [done|].
  destruct (sortSells (sellOrders m)) as [|s ss]; [done|].
  unfold outcome. cbn [fst]. intros [= Hlt] [= ->] [= ->] Hsu Hnz Hbu Hpoor.
  rewrite Hlt, Hsu. cbv zeta. apply Z.eqb_neq in Hnz as ->. rewrite Hbu.
  apply Z.ltb_lt in Hpoor as ->. done.
Qed.

(** X8. With an overlap, when the best ask's account is not in the ledger,
    or when the seller can deliver and the best bid's account is not in the
    ledger, [processOrder] throws a [TypeError]; the ledger, the overhead and
    the history are untouched and the books keep their orders. *)
Theorem processOrder_unknown_account m now bid ask :
  outcome (hasFoundOverlap m) = Returned true →
  outcome (getBestBuyOrder m) = Returned bid →
  outcome (getBestSellOrder m) = Returned ask →
  users m !! account ask = None ∨
  (∃ sellingUser, users m !! account ask = Some sellingUser ∧
                  stockCapped sellingUser bid ask ≠ 0 ∧
                  users m !! account bid = None) →
  outcome (processOrder now m) = Threw TypeError ∧
  buyOrders (after (processOrder now m)) ≡ₚ buyOrders m ∧
  sellOrders (after (processOrder now m)) ≡ₚ sellOrders m ∧
  users (after (processOrder now m)) = users m ∧
  overheadMade (after (processOrder now m)) = overheadMade m ∧
  history (after (processOrder now m)) = history m.
Proof.
  rewrite hasFoundOverlap_run, getBestBuyOrder_run, getBestSellOrder_run,
    processOrder_run. unfold stockCapped.
  pose proof (sortBuys_perm (buyOrders m)) as Hpb.
  pose proof (sortSells_perm (sellOrders m)) as Hps.
  destruct (sortBuys (buyOrders m)) as [|b bs]; [done|].
  destruct (sortSells (sellOrders m)) as [|s ss]; [done|].
  unfold outcome. cbn [fst]. intros [= Hlt] [= ->] [= ->] Hmissing.
  rewrite Hlt. cbv zeta.
  destruct Hmissing as [Hsu|(su & Hsu & Hnz & Hbu)]; rewrite Hsu; [done|].
  apply Z.eqb_neq in Hnz as ->. by rewrite Hbu.
Qed.

(** ** What one call of [processOrder] can change *)

(** Either the ledger, the overhead and the history are as before, or the
    two best orders were matched: both accounts are in the ledger, the two
    balances were written (the seller's last), the overhead grew by the
    spread on the traded quantity, and the history has at most one entry
    more. *)
Lemma processOrder_effect now m :
  (users (after (processOrder now m)) = users m ∧
   overheadMade (after (processOrder now m)) = overheadMade m ∧
   history (after (processOrder now m)) = history m) ∨
  ∃ b bs s ss bu su sd,
    sortBuys (buyOrders m) = b :: bs ∧ sortSells (sellOrders m) = s :: ss ∧
    price s < price b ∧
    users m !! account s = Some su ∧ users m !! account b = Some bu ∧
    stockCapped su b s ≠ 0 ∧ price b ≤ money bu ∧
    sd = (if money bu <? price b * stockCapped su b s
          then money bu / price b else stockCapped su b s) ∧
    users (after (processOrder now m)) =
      <[account s := {| money := money su + sd * price s;
                        stock := stock su - sd |}]>
        (<[account b := {| money := money bu - price b * sd;
                           stock := stock bu + sd |}]> (users m)) ∧
    overheadMade (after (processOrder now m)) =
      overheadMade m + (price b * sd - sd * price s) ∧
    (history (after (processOrder now m)) = history m ∨
     history (after (processOrder now m)) =
       history m ++ [tradeEntry now b s sd]).
Proof.
  rewrite processOrder_run. unfold stockCapped.
  destruct (sortBuys (buyOrders m)) as [|b bs]; [by left|].
  cbv zeta. destruct (sortSells (sellOrders m)) as [|s ss]; [by left|].
  destruct (Z.ltb_spec (price s) (price b)) as [Hlt|]; [|by left].
  destruct (users m !! account s) as [su|] eqn:Hsu; [|by left].
  destruct (Z.eqb_spec (if stock su <? quantity s then stock su
                        else Z.min (quantity b) (quantity s)) 0) as [|Hnz];
    [by left|].
  destruct (users m !! account b) as [bu|] eqn:Hbu; [|by left].
  destruct (Z.ltb_spec (money bu) (price b)) as [|Hpay]; [by left|].
  destruct (_ && _); [by left|].
  right. eexists b, bs, s, ss, bu, su, _.
  match goal with
  | |- context [after (finishTrade now b s ?q ?m2)] =>
      destruct (finishTrade_frame now b s q m2) as [-> ->];
      destruct (finishTrade_history now b s q m2) as [->|[_ ->]]
  end; repeat split; try done; first [by left|by right].
Qed.


(** ** Sequences of calls *)

Lemma perform_history c m :
  history (perform c m) = history m ∨
  ∃ now e, c = CallProcessOrder now ∧ history (perform c m) = history m ++ [e].
Proof.
  destruct c as [userid money0 stock0|order now|acct| |n| |n| |now| | |];
    cbn [perform]; try (by left).
  - left. unfold addOrder. cbv zeta.
    by destruct (addOrderPreservingTimestamp_frame (setTime now order) m)
      as (_ & _ & ->).
  - left. by rewrite getBestBuyOrder_run.
  - left. by rewrite getBestNBuyOrders_run.
  - left. by rewrite getBestSellOrder_run.
  - left. by rewrite getBestNSellOrders_run.
  - left. rewrite hasFoundOverlap_run.
    destruct (sortBuys (buyOrders m)); [done|]. cbv zeta.
    by destruct (sortSells (sellOrders m)).
  - destruct (processOrder_effect now m)
      as [(_ & _ & ->)|(b & bs & s & ss & bu & su & sd & H)]; [by left|].
    destruct H as (_ & _ & _ & _ & _ & _ & _ & _ & _ & _ & [->| ->]);
      [by left|right; eauto].
Qed.

(** X10. The history is append-only: whatever sequence of calls is made,
    the history before is a prefix of the history after, and it grows by at
    most one entry for each call of [processOrder]. *)
Theorem history_append_only calls m :
  history m `prefix_of` history (performAll calls m) ∧
  (length (history (performAll calls m)) ≤
     length (history m) + settlements calls)%nat.
Proof.
  revert m. induction calls as [|c calls IH]; intros m.
  { cbn. split; [done|lia]. }
  change (performAll (c :: calls) m) with (performAll calls (perform c m)).
  destruct (IH (perform c m)) as [Hpre Hlen].
  destruct (perform_history c m) as [Heq|(now & e & -> & Heq)];
    rewrite Heq in Hpre, Hlen.
  - split; [done|].
    change (settlements (c :: calls))
      with (match c with CallProcessOrder _ => S (settlements calls)
            | _ => settlements calls end).
    destruct c; lia.
  - split.
    + etransitivity; [|exact Hpre]. by apply prefix_app_r.
    + rewrite length_app in Hlen.
      change (settlements (CallProcessOrder now :: calls))
        with (S (settlements calls)).
      cbn [length] in Hlen. lia.
Qed.

Lemma perform_accounts c m :
  dom (users (perform c m)) =
  dom (users m) ∪ match c with
                  | CallAddUser userid _ _ => {[userid]}
                  | _ => ∅
                  end.
Proof.
  destruct c as [userid money0 stock0|order now|acct| |n| |n| |now| | |];
    cbn [perform]; try (by rewrite union_empty_r_L).
  - cbn. rewrite dom_insert_L. set_solver.
  - rewrite union_empty_r_L. unfold addOrder. cbv zeta.
    by destruct (addOrderPreservingTimestamp_frame (setTime now order) m)
      as (-> & _).
  - rewrite union_empty_r_L. by rewrite getBestBuyOrder_run.
  - rewrite union_empty_r_L. by rewrite getBestNBuyOrders_run.
  - rewrite union_empty_r_L. by rewrite getBestSellOrder_run.
  - rewrite union_empty_r_L. by rewrite getBestNSellOrders_run.
  - rewrite union_empty_r_L, hasFoundOverlap_run.
    destruct (sortBuys (buyOrders m)); [done|]. cbv zeta.
    by destruct (sortSells (sellOrders m)).
  - rewrite union_empty_r_L.
    destruct (processOrder_effect now m)
      as [(-> & _)|(b & bs & s & ss & bu & su & sd & H)]; [done|].
    destruct H as (_ & _ & _ & Hsu & Hbu & _ & _ & _ & -> & _).
    rewrite !dom_insert_L.
    apply (elem_of_dom_2 (users m)) in Hsu, Hbu. set_solver.
Qed.

(** X11. Accounts are created by [addUser] only and are never removed: after
    any sequence of calls the accounts of the ledger are those it had and
    the identifiers [addUser] was called with. *)
Theorem ledger_accounts calls m :
  dom (users (performAll calls m)) = dom (users m) ∪ addedUsers calls.
Proof.
  revert m. induction calls as [|c calls IH]; intros m.
  { cbn. by rewrite union_empty_r_L. }
  change (performAll (c :: calls) m) with (performAll calls (perform c m)).
  rewrite IH, perform_accounts. cbn [addedUsers foldr].
  destruct c; set_solver.
Qed.

(** ** The traded quantity, the overhead and the totals *)

Lemma traded_quantity_facts su bu b s sd :
  0 ≤ stock su → 0 ≤ money bu → 0 ≤ quantity b → 0 ≤ quantity s →
  stockCapped su b s ≠ 0 → price b ≤ money bu →
  sd = (if money bu <? price b * stockCapped su b s
        then money bu / price b else stockCapped su b s) →
  1 ≤ sd ∧ sd ≤ quantity s ∧ sd ≤ stock su ∧ price b * sd ≤ money bu ∧
  (quantity s ≤ stock su → sd ≤ quantity b).
Proof.
  intros Hstock Hmoney Hqb Hqs Hnz Hpay ->.
  assert (1 ≤ stockCapped su b s ∧ stockCapped su b s ≤ quantity s ∧
          stockCapped su b s ≤ stock su ∧
          (quantity s ≤ stock su → stockCapped su b s ≤ quantity b))
    as (H1 & Hs & Hsu & Hb).
  { revert Hnz. unfold stockCapped.
    destruct (Z.ltb_spec (stock su) (quantity s)); lia. }
  destruct (Z.ltb_spec (money bu) (price b * stockCapped su b s)) as [Hcap|Hcap];
    [|repeat split; lia].
  assert (0 < price b) as Hpos by nia.
  assert (1 ≤ money bu / price b)
    by (apply Z.div_le_lower_bound; lia).
  assert (money bu / price b < stockCapped su b s)
    by (apply Z.div_lt_upper_bound; lia).
  assert (price b * (money bu / price b) ≤ money bu)
    by (apply Z.mul_div_le; lia).
  repeat split; lia.
Qed.

(** X12. From a state where every balance and every booked quantity is
    non-negative, [processOrder] never lowers the overhead: a trade adds the
    traded quantity times the spread between the bid's and the ask's price,
    which is positive. *)
Theorem overhead_never_decreases m now :
  balancesNonNegative m →
  (∀ o, booked m o → 0 ≤ quantity o) →
  overheadMade m ≤ overheadMade (after (processOrder now m)).
Proof.
  intros Hbal Hqty.
  destruct (processOrder_effect now m)
    as [(_ & -> & _)|(b & bs & s & ss & bu & su & sd & H)]; [done|].
  destruct H as (Hb & Hs & Hlt & Hsu & Hbu & Hnz & Hpay & Hsd & _ & -> & _).
  destruct (sorted_head_booked _ _ _ _ _ Hb Hs) as [Hbb Hbs].
  destruct (traded_quantity_facts su bu b s sd) as (H1 & _); try done.
  - by apply (Hbal _ _ Hsu).
  - by apply (Hbal _ _ Hbu).
  - by apply Hqty.
  - by apply Hqty.
  - nia.
Qed.

(** X13. In a trade, the traded quantity is at least 1, at most the ask's
    quantity and at most the seller's stock, and the buyer has the money to
    pay for it at the bid's price.  It is at most the bid's quantity when the
    seller's stock covers the ask; when it does not, the quantity is the
    seller's stock (or what the buyer can pay of it), whatever the bid asked
    for. *)
Theorem traded_quantity_bounds_of_a_trade m now entry :
  balancesNonNegative m →
  (∀ o, booked m o → 0 ≤ quantity o) →
  history (after (processOrder now m)) = history m ++ [entry] →
  ∃ bid ask buyingUser sellingUser,
    outcome (getBestBuyOrder m) = Returned bid ∧
    outcome (getBestSellOrder m) = Returned ask ∧
    users m !! account bid = Some buyingUser ∧
    users m !! account ask = Some sellingUser ∧
    1 ≤ tradeQuantity entry ∧
    tradeQuantity entry ≤ quantity ask ∧
    tradeQuantity entry ≤ stock sellingUser ∧
    price bid * tradeQuantity entry ≤ money buyingUser ∧
    (quantity ask ≤ stock sellingUser → tradeQuantity entry ≤ quantity bid).
Proof.
  intros Hbal Hqty Hhist.
  destruct (processOrder_effect now m)
    as [(_ & _ & Hsame)|(b & bs & s & ss & bu & su & sd & H)].
  { rewrite Hsame in Hhist. by apply history_not_grown in Hhist. }
  destruct H as (Hb & Hs & Hlt & Hsu & Hbu & Hnz & Hpay & Hsd & _ & _ & Hh).
  destruct Hh as [Hsame|Hgrown].
  { rewrite Hsame in Hhist. by apply history_not_grown in Hhist. }
  rewrite Hgrown in Hhist. apply app_inj_tail in Hhist as [_ <-].
  destruct (sorted_head_booked _ _ _ _ _ Hb Hs) as [Hbb Hbs].
  rewrite getBestBuyOrder_run, getBestSellOrder_run, Hb, Hs.
  exists b, s, bu, su. repeat split; try done;
    apply (traded_quantity_facts su bu b s sd); try done;
    solve [by apply (Hbal _ _ Hsu) | by apply (Hbal _ _ Hbu) | by apply Hqty].
Qed.

(** The bid of [shortSeller] is for 2; the seller holds 5 of the 10 asked,
    and 5 are traded. *)
Remark short_seller_fills_beyond_the_bid :
  outcome (getBestBuyOrder shortSeller) =
    Returned (setTime 1 (newOrder alice 1500 2 BUY)) ∧
  history (after (processOrder 3 shortSeller)) =
    [{| buyer := alice; seller := bob; buyPrice := 1500; sellPrice := 1000;
        tradeQuantity := 5; tradeTime := 3 |}] ∧
  users (after (processOrder 3 shortSeller)) !! alice =
    Some {| money := 7500; stock := 76 |} ∧
  buyOrders (after (processOrder 3 shortSeller)) = [].
Proof. by vm_compute. Qed.

Lemma total_insert (f : Balance → Z) (ledger : gmap string Balance) acct old new :
  ledger !! acct = Some old →
  map_fold (λ _ bal acc, f bal + acc) 0 (<[acct := new]> ledger) =
  map_fold (λ _ bal acc, f bal + acc) 0 ledger - f old + f new.
Proof.
  intros Hold.
  rewrite (map_fold_delete_L _ _ acct old ledger); [|intros; lia|done].
  rewrite <- (insert_delete_eq ledger).
  rewrite map_fold_insert_L; [lia|intros; lia|apply lookup_delete_eq].
Qed.

(** X14. When the two best orders come from different accounts,
    [processOrder] keeps the total stock of the ledger, and the total money
    of the ledger plus the overhead: what the buyer pays goes to the seller
    and to the overhead, and the stock the seller gives goes to the buyer. *)
Theorem processOrder_conserves_stock_and_money m now :
  (∀ bid ask, outcome (getBestBuyOrder m) = Returned bid →
              outcome (getBestSellOrder m) = Returned ask →
              account bid ≠ account ask) →
  totalStock (after (processOrder now m)) = totalStock m ∧
  totalMoney (after (processOrder now m)) +
    overheadMade (after (processOrder now m)) =
  totalMoney m + overheadMade m.
Proof.
  intros Hne. unfold totalStock, totalMoney.
  destruct (processOrder_effect now m)
    as [(-> & -> & _)|(b & bs & s & ss & bu & su & sd & H)]; [done|].
  destruct H as (Hb & Hs & _ & Hsu & Hbu & _ & _ & _ & -> & -> & _).
  assert (account b ≠ account s) as Hbs.
  { apply Hne; [by rewrite getBestBuyOrder_run, Hb
               |by rewrite getBestSellOrder_run, Hs]. }
  rewrite !(total_insert _ _ (account s) su)
    by (by rewrite lookup_insert_ne).
  rewrite !(total_insert _ _ (account b) bu) by done.
  cbn [money stock]. lia.
Qed.

(** ** Progress of a settlement loop *)






(** ** Priority after a partial fill *)

Lemma bestBid_time l o o' : bestBid l o → bestBid l o' → time o = time o'.
Proof. intros [Hin H] [Hin' H']. specialize (H _ Hin'). specialize (H' _ Hin). lia. Qed.

Lemma bestAsk_time l o o' : bestAsk l o → bestAsk l o' → time o = time o'.
Proof. intros [Hin H] [Hin' H']. specialize (H _ Hin'). specialize (H' _ Hin). lia. Qed.

Lemma remainder_bestBid b bs q :
  bestBid (b :: bs) b → bestBid (bs ++ [setQuantity q b]) (setQuantity q b).
Proof.
  intros [_ Hall]. split; [apply elem_of_app; right; by left|].
  intros o' [Ho'|Ho']%elem_of_app.
  - apply (Hall o'). by right.
  - apply list_elem_of_singleton in Ho' as ->. cbn. lia.
Qed.

Lemma remainder_bestAsk s ss q :
  bestAsk (s :: ss) s → bestAsk (ss ++ [setQuantity q s]) (setQuantity q s).
Proof.
  intros [_ Hall]. split; [apply elem_of_app; right; by left|].
  intros o' [Ho'|Ho']%elem_of_app.
  - apply (Hall o'). by right.
  - apply list_elem_of_singleton in Ho' as ->. cbn. lia.
Qed.

(** X16. After a partial fill the remainder has lost no priority: in a
    reachable state, when [processOrder] trades less than the best bid's
    quantity, the remainder of the bid is a best bid of the new book, and
    [getBestBuyOrder] then returns an order with the price and the arrival
    time of the bid that was filled.  The same holds for a partly filled
    ask. *)
Theorem remainder_keeps_priority m now bid ask entry :
  reachable m →
  outcome (getBestBuyOrder m) = Returned bid →
  outcome (getBestSellOrder m) = Returned ask →
  history (after (processOrder now m)) = history m ++ [entry] →
  (tradeQuantity entry < quantity bid →
   bestBid (buyOrders (after (processOrder now m)))
     (setQuantity (quantity bid - tradeQuantity entry) bid) ∧
   ∃ o, outcome (getBestBuyOrder (after (processOrder now m))) = Returned o ∧
        price o = price bid ∧ time o = time bid) ∧
  (tradeQuantity entry < quantity ask →
   bestAsk (sellOrders (after (processOrder now m)))
     (setQuantity (quantity ask - tradeQuantity entry) ask) ∧
   ∃ o, outcome (getBestSellOrder (after (processOrder now m))) = Returned o ∧
        price o = price ask ∧ time o = time ask).
Proof.
  intros Hreach Hbid Hask Hhist.
  destruct (processOrder_traded _ _ _ Hhist)
    as (b & bs & s & ss & bu & su & Hb & Hs & Hbu & Hsu & He & Hrun).
  rewrite getBestBuyOrder_run, Hb in Hbid. injection Hbid as ->.
  rewrite getBestSellOrder_run, Hs in Hask. injection Hask as ->.
  destruct (sorted_books _ _ _ (reachable_sidesAgree _ Hreach)) as [Hsb Hss].
  rewrite Hb in Hsb. rewrite Hs in Hss.
  apply Forall_cons in Hsb as [Hbuy _]. apply Forall_cons in Hss as [Hsell _].
  assert (bestBid (bid :: bs) bid) as Hbest.
  { rewrite <- Hb. eapply sortBuys_head. by rewrite sortBuys_idem. }
  assert (bestAsk (ask :: ss) ask) as Hbesta.
  { rewrite <- Hs. eapply sortSells_head. by rewrite sortSells_idem. }
  rewrite Hrun, finishTrade_run by done.
  rewrite getBestBuyOrder_run, getBestSellOrder_run.
  cbn [after snd outcome fst buyOrders sellOrders setBuyOrders setSellOrders
       setUsers setOverheadMade tail app].
  unfold remainder. split; intros Hlt; apply Z.ltb_lt in Hlt as ->.
  - pose proof (remainder_bestBid _ _ (quantity bid - tradeQuantity entry) Hbest)
      as Hrem.
    split; [done|].
    destruct (sortBuys (bs ++ [_])) as [|o rest] eqn:Heq.
    { apply sortBuys_nil in Heq. by destruct bs. }
    apply sortBuys_head in Heq. exists o. split; [done|].
    rewrite (bestBid_price _ _ _ Heq Hrem), (bestBid_time _ _ _ Heq Hrem). done.
  - pose proof (remainder_bestAsk _ _ (quantity ask - tradeQuantity entry) Hbesta)
      as Hrem.
    split; [done|].
    destruct (sortSells (ss ++ [_])) as [|o rest] eqn:Heq.
    { apply sortSells_nil in Heq. by destruct ss. }
    apply sortSells_head in Heq. exists o. split; [done|].
    rewrite (bestAsk_price _ _ _ Heq Hrem), (bestAsk_time _ _ _ Heq Hrem). done.
Qed.

(** ** Invariants of every reachable state *)

(** X17. Whatever orders were submitted, in every reachable state the bid
    book holds only ["BUY"] orders and the ask book only ["SELL"] orders, and
    no booked order has quantity 0. *)
Theorem books_hold_their_side_and_no_empty_order m :
  reachable m →
  (∀ o, o ∈ buyOrders m → action o = BUY ∧ quantity o ≠ 0) ∧
  (∀ o, o ∈ sellOrders m → action o = SELL ∧ quantity o ≠ 0).
Proof.
  intros Hreach.
  destruct (reachableWith_books (λ _, True)
              (λ o, action o = BUY ∧ quantity o ≠ 0)
              (λ o, action o = SELL ∧ quantity o ≠ 0)) with (m := m)
    as [Hb Hs]; try done.
  - by intros o [? _].
  - by intros o [? _].
  - intros o q [? _] ?. cbn. split; [done|lia].
  - intros o q [? _] ?. cbn. split; [done|lia].
  - by rewrite !Forall_forall in Hb, Hs.
Qed.

(** ** The further properties at the example states *)

Lemma better_price_becomes_best_witness :
  quantity (newOrder bob 1600 3 BUY) ≠ 0 ∧
  outcome (getBestBuyOrder
             (after (addOrder (newOrder bob 1600 3 BUY) 3 partialFill))) =
    Returned (setTime 3 (newOrder bob 1600 3 BUY)).
Proof.
  assert (quantity (newOrder bob 1600 3 BUY) ≠ 0) as Hnz by done.
  split; [done|].
  apply (better_price_becomes_best (newOrder bob 1600 3 BUY) 3 partialFill Hnz);
    [reflexivity|].
  apply Forall_forall. by repeat constructor.
Defined.

Lemma getBestNOrders_are_the_best_witness :
  0 ≤ 2 ∧
  ∃ l others,
    outcome (getBestNSellOrders 2 tiedAsks) = Returned l ∧
    Z.of_nat (length l) = Z.min 2 (Z.of_nat (length (sellOrders tiedAsks))) ∧
    l ++ others ≡ₚ sellOrders tiedAsks ∧
    StronglySorted askPriority l ∧
    ∀ o o', o ∈ l → o' ∈ others → askPriority o o'.
Proof.
  assert (0 ≤ 2) as Hn by lia.
  exact (conj Hn (proj2 (getBestNOrders_are_the_best 2 tiedAsks Hn))).
Defined.

Lemma processOrder_evicts_unaffordable_bid_witness :
  outcome (hasFoundOverlap buyerWithoutMoney) = Returned true ∧
  users buyerWithoutMoney !! charlie = Some {| money := 120; stock := 4 |} ∧
  outcome (processOrder 4 buyerWithoutMoney) = Returned tt ∧
  buyOrders (after (processOrder 4 buyerWithoutMoney)) =
    [setTime 1 (newOrder alice 1500 5 BUY)] ∧
  users (after (processOrder 4 buyerWithoutMoney)) = users buyerWithoutMoney ∧
  history (after (processOrder 4 buyerWithoutMoney)) = [].
Proof.
  assert (outcome (hasFoundOverlap buyerWithoutMoney) = Returned true)
    as Hov by (by vm_compute).
  assert (users buyerWithoutMoney !! charlie =
            Some {| money := 120; stock := 4 |}) as Hbuyer
    by (by vm_compute).
  destruct (processOrder_evicts_unaffordable_bid buyerWithoutMoney 4
              (setTime 3 (newOrder charlie 2000 1 BUY))
              (setTime 2 (newOrder bob 1000 5 SELL))
              {| money := 19000; stock := 17 |}
              {| money := 120; stock := 4 |} Hov)
    as (Hret & Hbuys & _ & _ & _ & Husers & _ & Hhist);
    [by vm_compute|by vm_compute|by vm_compute|by vm_compute|exact Hbuyer
    |cbn; lia|].
  exact (conj Hov (conj Hbuyer (conj Hret (conj Hbuys (conj Husers Hhist))))).
Defined.

Lemma processOrder_unknown_account_witness :
  outcome (hasFoundOverlap strangerAsk) = Returned true ∧
  users strangerAsk !! charlie = None ∧
  outcome (processOrder 3 strangerAsk) = Threw TypeError ∧
  users (after (processOrder 3 strangerAsk)) = users strangerAsk ∧
  overheadMade (after (processOrder 3 strangerAsk)) = 0 ∧
  history (after (processOrder 3 strangerAsk)) = [].
Proof.
  assert (outcome (hasFoundOverlap strangerAsk) = Returned true)
    as Hov by (by vm_compute).
  assert (users strangerAsk !! charlie = None) as Hnone by (by vm_compute).
  destruct (processOrder_unknown_account strangerAsk 3
              (setTime 1 (newOrder alice 1500 5 BUY))
              (setTime 2 (newOrder charlie 1000 5 SELL)) Hov)
    as (Hthrew & _ & _ & Husers & Hover & Hhist);
    [by vm_compute|by vm_compute|by left|].
  exact (conj Hov (conj Hnone (conj Hthrew (conj Husers (conj Hover Hhist))))).
Defined.


Lemma overhead_never_decreases_witness :
  balancesNonNegative budgetCapped ∧
  (∀ o, booked budgetCapped o → 0 ≤ quantity o) ∧
  overheadMade budgetCapped ≤ overheadMade (after (processOrder 3 budgetCapped)).
Proof.
  assert (balancesNonNegative budgetCapped) as Hbal
    by (by apply twoAccounts_balances).
  assert (∀ o, booked budgetCapped o → 0 ≤ quantity o) as Hqty
    by (apply booked_Forall; by repeat constructor).
  exact (conj Hbal (conj Hqty
           (overhead_never_decreases budgetCapped 3 Hbal Hqty))).
Defined.

Lemma traded_quantity_bounds_of_a_trade_witness :
  balancesNonNegative shortSeller ∧
  (∀ o, booked shortSeller o → 0 ≤ quantity o) ∧
  ∃ bid ask buyingUser sellingUser,
    outcome (getBestBuyOrder shortSeller) = Returned bid ∧
    outcome (getBestSellOrder shortSeller) = Returned ask ∧
    users shortSeller !! account bid = Some buyingUser ∧
    users shortSeller !! account ask = Some sellingUser ∧
    1 ≤ 5 ∧ 5 ≤ quantity ask ∧ 5 ≤ stock sellingUser ∧
    price bid * 5 ≤ money buyingUser ∧
    (quantity ask ≤ stock sellingUser → 5 ≤ quantity bid).
Proof.
  assert (balancesNonNegative shortSeller) as Hbal
    by (by apply twoAccounts_balances).
  assert (∀ o, booked shortSeller o → 0 ≤ quantity o) as Hqty
    by (apply booked_Forall; by repeat constructor).
  split; [done|]. split; [done|].
  apply (traded_quantity_bounds_of_a_trade shortSeller 3
           {| buyer := alice; seller := bob; buyPrice := 1500;
              sellPrice := 1000; tradeQuantity := 5; tradeTime := 3 |}
           Hbal Hqty).
  by vm_compute.
Defined.

Lemma fullFill_accounts_differ bid ask :
  outcome (getBestBuyOrder fullFill) = Returned bid →
  outcome (getBestSellOrder fullFill) = Returned ask →
  account bid ≠ account ask.
Proof.
  intros Hb Hs. vm_compute in Hb, Hs.
  injection Hb as <-. injection Hs as <-. done.
Qed.

Lemma processOrder_conserves_stock_and_money_witness :
  (∀ bid ask, outcome (getBestBuyOrder fullFill) = Returned bid →
              outcome (getBestSellOrder fullFill) = Returned ask →
              account bid ≠ account ask) ∧
  totalStock (after (processOrder 3 fullFill)) = totalStock fullFill ∧
  totalMoney (after (processOrder 3 fullFill)) +
    overheadMade (after (processOrder 3 fullFill)) =
  totalMoney fullFill + overheadMade fullFill.
Proof.
  exact (conj fullFill_accounts_differ
           (processOrder_conserves_stock_and_money fullFill 3
              fullFill_accounts_differ)).
Defined.


Lemma remainder_keeps_priority_witness :
  reachable partialFill ∧
  ∃ o, outcome (getBestBuyOrder (after (processOrder 3 partialFill))) =
         Returned o ∧
       price o = 1500 ∧ time o = 1.
Proof.
  assert (reachable partialFill) as Hreach
    by (by apply withOrders_reachable).
  split; [done|].
  refine (proj2 (proj1 (remainder_keeps_priority partialFill 3
                   (setTime 1 (newOrder alice 1500 6 BUY))
                   (setTime 2 (newOrder bob 1000 5 SELL))
                   {| buyer := alice; seller := bob; buyPrice := 1500;
                      sellPrice := 1000; tradeQuantity := 5; tradeTime := 3 |}
                   Hreach _ _ _) _)).
  - by vm_compute.
  - by vm_compute.
  - by vm_compute.
  - cbn. lia.
Defined.

Lemma books_hold_their_side_and_no_empty_order_witness :
  reachable negativeBid ∧
  (∀ o, o ∈ buyOrders negativeBid → action o = BUY ∧ quantity o ≠ 0) ∧
  (∀ o, o ∈ sellOrders negativeBid → action o = SELL ∧ quantity o ≠ 0).
Proof.
  assert (reachable negativeBid) as Hreach
    by (by apply withOrders_reachable).
  exact (conj Hreach (books_hold_their_side_and_no_empty_order _ Hreach)).
Defined.

Lemma trade_between_two_accounts_witness :
  history (after (processOrder 3 fullFill)) =
    history fullFill ++
      [{| buyer := alice; seller := bob; buyPrice := 1500; sellPrice := 1000;
          tradeQuantity := 5; tradeTime := 3 |}] ∧
  alice ≠ bob ∧
  ∃ buyingUser sellingUser buyingUser' sellingUser',
    users fullFill !! alice = Some buyingUser ∧
    users fullFill !! bob = Some sellingUser ∧
    users (after (processOrder 3 fullFill)) !! alice = Some buyingUser' ∧
    users (after (processOrder 3 fullFill)) !! bob = Some sellingUser' ∧
    money buyingUser' = money buyingUser - 5 * 1500 ∧
    money sellingUser' = money sellingUser + 5 * 1000 ∧
    stock buyingUser' = stock buyingUser + 5 ∧
    stock sellingUser' = stock sellingUser - 5.
Proof.
  assert (history (after (processOrder 3 fullFill)) =
            history fullFill ++
              [{| buyer := alice; seller := bob; buyPrice := 1500;
                  sellPrice := 1000; tradeQuantity := 5; tradeTime := 3 |}])
    as Hhist by (by vm_compute).
  assert (alice ≠ bob) as Hne by done.
  destruct (trade_between_two_accounts fullFill 3 _ Hhist Hne)
    as (bid & ask & bu & su & bu' & su' & _ & _ & _ & Hbp & _ & Hsp
        & Hbu & Hsu & Hbu' & Hsu' & Hm & Hm' & _ & Hs & Hs' & _).
  cbn in Hbp, Hsp. rewrite <- Hbp in Hm. rewrite <- Hsp in Hm'.
  split; [done|]. split; [done|].
  exists bu, su, bu', su'. by repeat split.
Defined.
